(** * apiforward: a shallow embedding of the request pipeline

    The development follows the Python sources under [app/]:
    - [app/core/rate_limiter.py]   : [RateLimiter.check_rate_limits]
    - [app/core/billing.py]        : [BillingSystem]
    - [app/core/request_handler.py]: [RequestHandler]
    - [app/providers/*.py]         : the three provider adapters
    - [app/models/model_manager.py]: [ModelManager]
    - [app/main.py]                : the POST /v1/chat/completions route

    Python dictionaries are association lists in insertion order, Python
    numbers of type [float] are exact rationals ([Q]), the Redis client is
    a pair of finite maps (values and TTLs), and the Mongo collections are
    lists of records, queried with the operators of the source written
    out.  Coroutines are run sequentially: one handler at a
    time. *)

From Stdlib Require Import QArith Qround.
From Stdlib Require Import Ascii String.
From stdpp Require Import base option strings gmap list pretty.

Set Default Proof Using "Type".
Local Open Scope Z_scope.

(** ** Python values *)

#[warnings="-register-all"]
Inductive pyval :=
| VNone
| VBool (b : bool)
| VInt (z : Z)
| VFloat (q : Q)
| VStr (s : string)
| VList (l : list pyval)
| VDict (d : list (string * pyval)).

Abbreviation pydict := (list (string * pyval)).

(** Exceptions: FastAPI's [HTTPException] and every other Python
    exception, kept with its class name and message. *)
Inductive exn :=
| HTTPException (status_code : Z) (detail : string)
| PyException (type_name : string) (msg : string).


(** ** Dictionaries *)

Fixpoint dict_get (d : pydict) (k : string) : option pyval :=
  match d with
  | [] => None
  | (k', v) :: d' => if String.eqb k' k then Some v else dict_get d' k
  end.

(** [d[k] = v]: an existing key keeps its position, a new one goes last. *)
Fixpoint dict_set (d : pydict) (k : string) (v : pyval) : pydict :=
  match d with
  | [] => [(k, v)]
  | (k', v') :: d' =>
      if String.eqb k' k then (k', v) :: d' else (k', v') :: dict_set d' k v
  end.

Fixpoint dict_remove (d : pydict) (k : string) : pydict :=
  match d with
  | [] => []
  | (k', v') :: d' =>
      if String.eqb k' k then d' else (k', v') :: dict_remove d' k
  end.

(** [d.pop(k, dflt)] *)
Definition dict_pop (d : pydict) (k : string) (dflt : pyval) : pyval * pydict :=
  match dict_get d k with
  | Some v => (v, dict_remove d k)
  | None => (dflt, d)
  end.

Definition py_num (v : pyval) : option Q :=
  match v with
  | VBool b => Some (if b then 1%Q else 0%Q)
  | VInt z => Some (inject_Z z)
  | VFloat q => Some q
  | _ => None
  end.

(** Python's [==]: numbers compare by value across [bool], [int] and
    [float]; dictionaries compare regardless of the order of their keys. *)
Fixpoint py_eqb (a b : pyval) : bool :=
  match a, b with
  | VNone, VNone => true
  | VStr s, VStr t => String.eqb s t
  | VList xs, VList ys =>
      (fix go (xs ys : list pyval) : bool :=
         match xs, ys with
         | [], [] => true
         | x :: xs', y :: ys' => py_eqb x y && go xs' ys'
         | _, _ => false
         end) xs ys
  | VDict d, VDict e =>
      Nat.eqb (length d) (length e) &&
      (fix all (d : pydict) : bool :=
         match d with
         | [] => true
         | (k, v) :: d' =>
             match dict_get e k with
             | Some v' => py_eqb v v'
             | None => false
             end && all d'
         end) d
  | _, _ =>
      match py_num a, py_num b with
      | Some x, Some y => Qeq_bool x y
      | _, _ => false
      end
  end.

(** Truth value of an object ([if not x]). *)
Definition py_truthy (v : pyval) : bool :=
  match v with
  | VNone => false
  | VBool b => b
  | VInt z => negb (z =? 0)
  | VFloat q => negb (Qeq_bool q 0)
  | VStr s => negb (String.eqb s "")
  | VList l => negb (Nat.eqb (length l) 0)
  | VDict d => negb (Nat.eqb (length d) 0)
  end.

Fixpoint chars (s : string) : list pyval :=
  match s with
  | EmptyString => []
  | String c s' => VStr (String c EmptyString) :: chars s'
  end.

(** [for x in v]: [None] stands for the [TypeError] of a value that is
    not iterable. *)
Definition py_iter (v : pyval) : option (list pyval) :=
  match v with
  | VList l => Some l
  | VStr s => Some (chars s)
  | VDict d => Some (map (fun kv => VStr (fst kv)) d)
  | _ => None
  end.

Definition py_len (v : pyval) : option nat :=
  match v with
  | VList l => Some (length l)
  | VStr s => Some (String.length s)
  | VDict d => Some (length d)
  | _ => None
  end.

(** [int(x)] of a float: truncation towards zero. *)
Definition Qtrunc (q : Q) : Z :=
  if Qle_bool 0 q then Qfloor q else Qceiling q.

(** ** Records of the catalogue store *)

Record datetime := {
  dt_year : Z;
  dt_month : Z;
  dt_date : string;   (* [str(now.date())] *)
  dt_minute : Z
}.

Record rate_limits := {
  requests_per_minute : Z;
  requests_per_day : Z;
  requests_per_month : Z;
  concurrent_requests : Z
}.

Record retry_config := {
  max_retries : Z;
  retry_delay : Z;
  fallback_to_lower_tier : option bool
}.

Record api_config := {
  api_key : string;
  tier : string;
  balance : Q;
  ac_rate_limits : rate_limits;
  ac_retry_config : retry_config;
  ac_status : option string
}.

Record pricing := {
  input_price : Q;
  output_price : Q;
  image_input_price : option Q
}.

Record param_config := {
  p_type : string;
  p_min : option pyval;
  p_max : option pyval;
  p_values : list pyval;
  p_default : option pyval
}.

Record model_config := {
  model_id : string;
  provider : string;
  capabilities : list (string * bool);
  mc_pricing : pricing;
  capability_level : Z;
  max_tokens : option Z;
  parameters : list (string * param_config);
  mc_status : string
}.

Record transaction := {
  tx_timestamp : datetime;
  tx_api_key : string;
  amount : Q;
  old_balance : Q;
  new_balance : Q;
  transaction_type : string
}.

Record retry_attempt := {
  attempt : Z;
  ra_timestamp : datetime;
  ra_status : string;
  ra_error : option string
}.

Record request_log := {
  rl_api_key : string;
  rl_model_id : option pyval;
  rl_parameters : pydict;
  rl_message_count : nat;
  rl_tokens : option pyval;
  rl_cost : option Q;
  rl_status : string;
  rl_retry_attempts : list retry_attempt;
  rl_message_types : list (pyval * Z);
  rl_error : option exn
}.

(** ** The counter store (Redis) *)

Module Redis.

Record t := { kv : gmap string Z; ttl : gmap string Z }.

Definition get (r : t) (k : string) : option Z := kv r !! k.

(** [INCR]: a missing key counts as 0; the answer is the new value. *)
Definition incr (r : t) (k : string) : Z * t :=
  let v := default 0 (kv r !! k) + 1 in
  (v, {| kv := <[k := v]> (kv r); ttl := ttl r |}).

(** [EXPIRE]: 1 when the key exists and the timeout was set. *)
Definition expire (r : t) (k : string) (seconds : Z) : Z * t :=
  match kv r !! k with
  | Some _ => (1, {| kv := kv r; ttl := <[k := seconds]> (ttl r) |})
  | None => (0, r)
  end.

Inductive command :=
| INCR (k : string)
| EXPIRE (k : string) (seconds : Z).

Definition run (r : t) (c : command) : Z * t :=
  match c with
  | INCR k => incr r k
  | EXPIRE k s => expire r k s
  end.

(** [pipe.execute()]: the queued commands run in order, without any
    other client in between, and their answers come back as a list. *)
Fixpoint execute (r : t) (cs : list command) : list Z * t :=
  match cs with
  | [] => ([], r)
  | c :: cs' =>
      let '(x, r1) := run r c in
      let '(xs, r2) := execute r1 cs' in
      (x :: xs, r2)
  end.

End Redis.

(** ** External collaborators

    What the pipeline calls but does not define: Python built-ins whose
    result depends on the textual form of floats, the HTTP client used to
    inline images, the upstream provider APIs, and the [models] collection
    of the catalogue store, which no request ever writes. *)
Record Env := {
  API_KEY_PREFIX : string;                   (* settings.API_KEY_PREFIX *)
  py_repr : pyval -> string;                 (* [str(x)] for a non-string x *)
  py_float_of_string : string -> option Q;   (* [float(s)], None = ValueError *)
  exn_str : exn -> string;                   (* [str(e)] *)
  http_get_b64 : string -> exn + string;     (* GET url, base64 of the body *)
  (* [client....create(messages=messages, **request)] followed by
     [model_dump()]: provider tag, number of earlier upstream calls,
     messages, remaining keyword arguments *)
  upstream : string -> nat -> pyval -> pydict -> exn + pyval;
  db_models : list model_config
}.

(** ** Mutable state

    The shared stores, plus the two objects that [handle_request] passes
    by reference to its helpers: the request dictionary and the list
    [retry_attempts]. *)
Record State := {
  redis : Redis.t;
  db_api_keys : list api_config;
  db_requests : list request_log;
  db_transactions : list transaction;
  upstream_calls : nat;
  now : datetime;
  request : pydict;
  retry_attempts : list retry_attempt
}.

Definition set_redis (r : Redis.t) (s : State) : State :=
  {| redis := r; db_api_keys := db_api_keys s; db_requests := db_requests s;
     db_transactions := db_transactions s; upstream_calls := upstream_calls s;
     now := now s; request := request s; retry_attempts := retry_attempts s |}.

Definition set_db_api_keys (l : list api_config) (s : State) : State :=
  {| redis := redis s; db_api_keys := l; db_requests := db_requests s;
     db_transactions := db_transactions s; upstream_calls := upstream_calls s;
     now := now s; request := request s; retry_attempts := retry_attempts s |}.

Definition set_db_requests (l : list request_log) (s : State) : State :=
  {| redis := redis s; db_api_keys := db_api_keys s; db_requests := l;
     db_transactions := db_transactions s; upstream_calls := upstream_calls s;
     now := now s; request := request s; retry_attempts := retry_attempts s |}.

Definition set_db_transactions (l : list transaction) (s : State) : State :=
  {| redis := redis s; db_api_keys := db_api_keys s; db_requests := db_requests s;
     db_transactions := l; upstream_calls := upstream_calls s;
     now := now s; request := request s; retry_attempts := retry_attempts s |}.

Definition set_upstream_calls (n : nat) (s : State) : State :=
  {| redis := redis s; db_api_keys := db_api_keys s; db_requests := db_requests s;
     db_transactions := db_transactions s; upstream_calls := n;
     now := now s; request := request s; retry_attempts := retry_attempts s |}.

Definition set_request (d : pydict) (s : State) : State :=
  {| redis := redis s; db_api_keys := db_api_keys s; db_requests := db_requests s;
     db_transactions := db_transactions s; upstream_calls := upstream_calls s;
     now := now s; request := d; retry_attempts := retry_attempts s |}.

Definition set_retry_attempts (l : list retry_attempt) (s : State) : State :=
  {| redis := redis s; db_api_keys := db_api_keys s; db_requests := db_requests s;
     db_transactions := db_transactions s; upstream_calls := upstream_calls s;
     now := now s; request := request s; retry_attempts := l |}.

(** ** The monad of the pipeline

    A computation runs on a state and either raises or returns, in both
    cases with the state it leaves behind.  [None] is reserved for a run
    that needs more re-entries of [handle_request] than it was given. *)
Definition M (A : Type) : Type := State -> option ((exn + A) * State).

#[export] Instance M_ret : MRet M := fun A a s => Some (inr a, s).

#[export] Instance M_bind : MBind M := fun A B f m s =>
  match m s with
  | None => None
  | Some (inl e, s') => Some (inl e, s')
  | Some (inr a, s') => f a s'
  end.

Definition raise {A} (e : exn) : M A := fun s => Some (inl e, s).

(** [try: m  except Exception as e: h e] *)
Definition try_except {A} (m : M A) (h : exn -> M A) : M A := fun s =>
  match m s with
  | Some (inl e, s') => h e s'
  | r => r
  end.

Definition gets {A} (f : State -> A) : M A := fun s => Some (inr (f s), s).

Definition modify (f : State -> State) : M unit := fun s => Some (inr tt, f s).

Definition lift {A} (r : exn + A) : M A := fun s => Some (r, s).

(** A subscript or attribute access that fails. *)
Definition KeyError {A} (k : string) : M A := raise (PyException "KeyError" k).
Definition TypeError {A} (m : string) : M A := raise (PyException "TypeError" m).
Definition AttributeError {A} (m : string) : M A :=
  raise (PyException "AttributeError" m).

(** ** app/core/rate_limiter.py *)

Definition concurrent_key (api_key : string) : string :=
  "concurrent:" +:+ api_key.
Definition minute_key (api_key : string) (t : datetime) : string :=
  "minute:" +:+ api_key +:+ ":" +:+ pretty (dt_minute t).
Definition day_key (api_key : string) (t : datetime) : string :=
  "day:" +:+ api_key +:+ ":" +:+ dt_date t.
Definition month_key (api_key : string) (t : datetime) : string :=
  "month:" +:+ api_key +:+ ":" +:+ pretty (dt_year t) +:+ "-" +:+ pretty (dt_month t).

Definition window_commands (api_key : string) (t : datetime) : list Redis.command :=
  [ Redis.INCR (minute_key api_key t); Redis.EXPIRE (minute_key api_key t) 60;
    Redis.INCR (day_key api_key t); Redis.EXPIRE (day_key api_key t) 86400;
    Redis.INCR (month_key api_key t); Redis.EXPIRE (month_key api_key t) 2592000 ].

Definition result_at (results : list Z) (i : nat) : Z := default 0 (results !! i).

Definition check_rate_limits (api_key : string) (limits : rate_limits) : M unit :=
  t ← gets now;
  r ← gets redis;
  let current_concurrent := default 0 (Redis.get r (concurrent_key api_key)) in
  if concurrent_requests limits <=? current_concurrent then
    raise (HTTPException 429 "Too many concurrent requests")
  else
    let '(results, r') := Redis.execute r (window_commands api_key t) in
    modify (set_redis r');;
    if requests_per_minute limits <? result_at results 0 then
      raise (HTTPException 429 "Rate limit exceeded (per minute)")
    else if requests_per_day limits <? result_at results 2 then
      raise (HTTPException 429 "Rate limit exceeded (per day)")
    else if requests_per_month limits <? result_at results 4 then
      raise (HTTPException 429 "Rate limit exceeded (per month)")
    else mret tt.

Definition Qltb (a b : Q) : bool := negb (Qle_bool b a).

Fixpoint assoc {A} (l : list (string * A)) (k : string) : option A :=
  match l with
  | [] => None
  | (k', v) :: l' => if String.eqb k' k then Some v else assoc l' k
  end.

(** ** app/core/billing.py *)

Definition find_api_key (k : string) (l : list api_config) : option api_config :=
  List.find (fun c => String.eqb (api_key c) k) l.

Definition with_balance (b : Q) (c : api_config) : api_config :=
  {| api_key := api_key c; tier := tier c; balance := b;
     ac_rate_limits := ac_rate_limits c; ac_retry_config := ac_retry_config c;
     ac_status := ac_status c |}.

(** [update_one({"api_key": k}, {"$set": {"balance": b}})]: the first
    matching document is updated. *)
Fixpoint update_one_balance (k : string) (b : Q) (l : list api_config) : list api_config :=
  match l with
  | [] => []
  | c :: l' =>
      if String.eqb (api_key c) k then with_balance b c :: l'
      else c :: update_one_balance k b l'
  end.

Definition check_balance (api_key : string) (estimated_cost : Q) : M bool :=
  keys ← gets db_api_keys;
  match find_api_key api_key keys with
  | None => TypeError "'NoneType' object is not subscriptable"
  | Some user =>
      if Qltb (balance user) estimated_cost then mret false else mret true
  end.

Definition _log_transaction (tx : transaction) : M unit :=
  modify (fun s => set_db_transactions (db_transactions s ++ [tx]) s).

Definition deduct_balance (api_key : string) (cost : Q) : M unit :=
  keys ← gets db_api_keys;
  match find_api_key api_key keys with
  | None => TypeError "'NoneType' object is not subscriptable"
  | Some user =>
      let old_balance := balance user in
      let new_balance := (old_balance - cost)%Q in
      modify (set_db_api_keys (update_one_balance api_key new_balance keys));;
      t ← gets now;
      _log_transaction
        {| tx_timestamp := t; tx_api_key := api_key; amount := cost;
           old_balance := old_balance; new_balance := new_balance;
           transaction_type := "deduction" |}
  end.

Section Pipeline.

Variable E : Env.

(** [str(x)] and the f-string conversion [{x}]. *)
Definition py_str (v : pyval) : string :=
  match v with
  | VStr s => s
  | _ => py_repr E v
  end.

(** ** app/models/model_manager.py *)

Definition get_model_config (id : pyval) : option model_config :=
  match id with
  | VStr s => List.find (fun m => String.eqb (model_id m) s) (db_models E)
  | _ => None
  end.

Definition get_api_config (k : string) : M (option api_config) :=
  keys ← gets db_api_keys; mret (find_api_key k keys).

(** The keys [k for k, v in capabilities.items() if v]. *)
Definition true_keys (caps : list (string * bool)) : list string :=
  map fst (List.filter snd caps).

(** The stored [capabilities] field: an embedded document, as
    [init_default_configs] inserts it. *)
Definition capabilities_document (m : model_config) : pyval :=
  VDict (map (fun kv => (fst kv, VBool (snd kv))) (capabilities m)).

(** MongoDB's match of a stored field against a string [v], as in
    [{field: v}]: the field is that string, or it is an array with an
    element equal to it.  A number, a boolean, null or an embedded
    document is never equal to a string. *)
Definition field_matches (field : pyval) (v : string) : bool :=
  match field with
  | VStr t => String.eqb t v
  | VList items =>
      existsb (fun item => match item with VStr t => String.eqb t v | _ => false end)
        items
  | _ => false
  end.

(** MongoDB's [{field: {"$all": values}}], which stands for the
    conjunction of [{field: v}] over the values; with an empty list of
    values it selects no document. *)
Definition mongo_all (field : pyval) (values : list string) : bool :=
  match values with
  | [] => false
  | _ => forallb (field_matches field) values
  end.

(** The query of [find_lower_tier_model], clause by clause: a capability
    level below the current one, the [$all] clause, which compares the
    stored [capabilities] document with the keys that are true for the
    current model, and an active status. *)
Definition lower_tier_query (current_level : Z) (caps : list (string * bool))
    (m : model_config) : bool :=
  (capability_level m <? current_level)
  && mongo_all (capabilities_document m) (true_keys caps)
  && String.eqb (mc_status m) "active".

(** [sort=[("capability_level", -1)]] followed by [find_one]: a document
    of the highest level, the earliest of the collection among equals. *)
Fixpoint highest_level (l : list model_config) : option model_config :=
  match l with
  | [] => None
  | m :: l' =>
      match highest_level l' with
      | Some m' => if capability_level m <? capability_level m' then Some m' else Some m
      | None => Some m
      end
  end.

Definition find_lower_tier_model (current_level : Z) (caps : list (string * bool))
  : option model_config :=
  highest_level (List.filter (lower_tier_query current_level caps) (db_models E)).

Definition log_request (entry : request_log) : M unit :=
  modify (fun s => set_db_requests (db_requests s ++ [entry]) s).

(** ** app/core/request_handler.py: validation *)

Definition bad_request {A} (detail : string) : exn + A :=
  inl (HTTPException 400 detail).

Definition invalid_type {A} (param : string) (pc : param_config) : exn + A :=
  bad_request ("Parameter '" +:+ param +:+ "' has invalid type. Expected " +:+ p_type pc).

(** [float(value)]; [None] is the [ValueError] or [TypeError]. *)
Definition py_float (v : pyval) : option Q :=
  match v with
  | VStr s => py_float_of_string E s
  | _ => py_num v
  end.

(** [value < bound] and [value > bound] for a number [value]; [None] is
    the [TypeError] of a bound that is not a number. *)
Definition num_lt (value : Q) (bound : pyval) : option bool :=
  match py_num bound with
  | Some b => Some (Qltb value b)
  | None => None
  end.

Definition num_gt (value : Q) (bound : pyval) : option bool :=
  match py_num bound with
  | Some b => Some (Qltb b value)
  | None => None
  end.

Definition check_max (param : string) (pc : param_config) (value : Q) : exn + unit :=
  match p_max pc with
  | None => inr tt
  | Some mx =>
      match num_gt value mx with
      | None => invalid_type param pc
      | Some true =>
          bad_request ("Parameter '" +:+ param +:+ "' must be <= " +:+ py_str mx)
      | Some false => inr tt
      end
  end.

Definition check_range (param : string) (pc : param_config) (value : Q) : exn + unit :=
  match p_min pc with
  | None => check_max param pc value
  | Some mn =>
      match num_lt value mn with
      | None => invalid_type param pc
      | Some true =>
          bad_request ("Parameter '" +:+ param +:+ "' must be >= " +:+ py_str mn)
      | Some false => check_max param pc value
      end
  end.

(** One turn of the second loop for a declared parameter: the outcome and
    the value stored under [param] afterwards.  The converted value is
    written back before the bounds are compared. *)
Definition coerce_param (param : string) (pc : param_config) (value : pyval)
  : (exn + unit) * pyval :=
  if String.eqb (p_type pc) "float" then
    match py_float value with
    | None => (invalid_type param pc, value)
    | Some q => (check_range param pc q, VFloat q)
    end
  else if String.eqb (p_type pc) "int" then
    match py_float value with
    | None => (invalid_type param pc, value)
    | Some q => (check_range param pc (inject_Z (Qtrunc q)), VInt (Qtrunc q))
    end
  else if String.eqb (p_type pc) "enum" then
    if existsb (py_eqb value) (p_values pc) then (inr tt, value)
    else (bad_request ("Parameter '" +:+ param +:+ "' must be one of: "
                       +:+ py_str (VList (p_values pc))), value)
  else (inr tt, value).

(** The first loop: a [None] value takes the declared default. *)
Definition fill_default (allowed : list (string * param_config))
    (kv : string * pyval) : string * pyval :=
  match snd kv with
  | VNone =>
      match assoc allowed (fst kv) with
      | Some pc =>
          match p_default pc with
          | Some d => (fst kv, d)
          | None => kv
          end
      | None => kv
      end
  | _ => kv
  end.

(** The second loop, entry by entry in the order of the dictionary; it
    stops at the first failure and leaves the earlier writes in place. *)
Fixpoint coerce_items (allowed : list (string * param_config)) (items : pydict)
  : (exn + unit) * pydict :=
  match items with
  | [] => (inr tt, [])
  | (param, value) :: rest =>
      match assoc allowed param with
      | None =>
          let '(r, rest') := coerce_items allowed rest in (r, (param, value) :: rest')
      | Some pc =>
          match coerce_param param pc value with
          | (inl e, v) => (inl e, (param, v) :: rest)
          | (inr _, v) =>
              let '(r, rest') := coerce_items allowed rest in (r, (param, v) :: rest')
          end
      end
  end.

Definition message_ok (message : pyval) : bool :=
  match message with
  | VDict d => bool_decide (is_Some (dict_get d "role"))
               && bool_decide (is_Some (dict_get d "content"))
  | _ => false
  end.

(** [_validate_request] on the request object: what it raises or returns
    ([None], here [tt]) and the dictionary it leaves behind. *)
Definition validate (req : pydict) (mc : model_config) : (exn + unit) * pydict :=
  if negb (py_truthy (default VNone (dict_get req "messages"))) then
    (bad_request "Request must contain 'messages' field", req)
  else
    match py_iter (default VNone (dict_get req "messages")) with
    | None => (inl (PyException "TypeError" "object is not iterable"), req)
    | Some messages =>
        if negb (forallb message_ok messages) then
          (bad_request "Invalid message format", req)
        else
          coerce_items (parameters mc) (map (fill_default (parameters mc)) req)
    end.

Definition _validate_request (mc : model_config) : M unit :=
  req ← gets request;
  let '(r, req') := validate req mc in
  modify (set_request req');;
  lift r.

(** ** app/core/request_handler.py: cost *)

(** [len(str(msg.get("content", ""))) // 4] *)
Definition content_tokens (msg : pyval) : exn + Z :=
  match msg with
  | VDict d =>
      inr (Z.of_nat (String.length (py_str (default (VStr "") (dict_get d "content")))) / 4)
  | _ => inl (PyException "AttributeError" "object has no attribute 'get'")
  end.

Fixpoint sum_tokens (messages : list pyval) : exn + Z :=
  match messages with
  | [] => inr 0
  | msg :: rest =>
      match content_tokens msg with
      | inl e => inl e
      | inr n =>
          match sum_tokens rest with
          | inl e => inl e
          | inr m => inr (n + m)
          end
      end
  end.

(** [isinstance(item, dict) and item.get("type") in ["image", "image_url"]] *)
Definition is_image_item (item : pyval) : bool :=
  match item with
  | VDict d =>
      let ty := default VNone (dict_get d "type") in
      py_eqb ty (VStr "image") || py_eqb ty (VStr "image_url")
  | _ => false
  end.

(** The image items of one message; a content that is not a list has none. *)
Definition image_items (message : pyval) : exn + list pyval :=
  match message with
  | VDict d =>
      match default (VList []) (dict_get d "content") with
      | VList items => inr (List.filter is_image_item items)
      | _ => inr []
      end
  | _ => inl (PyException "AttributeError" "object has no attribute 'get'")
  end.

(** The two nested loops that add [image_input_price] once per image item. *)
Fixpoint add_image_cost (price : Q) (messages : list pyval) (image_cost : Q) : exn + Q :=
  match messages with
  | [] => inr image_cost
  | message :: rest =>
      match image_items message with
      | inl e => inl e
      | inr items =>
          add_image_cost price rest
            (fold_left (fun c _ => (c + price)%Q) items image_cost)
      end
  end.

Definition estimate (req : pydict) (mc : model_config) : exn + Q :=
  match dict_get req "messages" with
  | None => inl (PyException "KeyError" "messages")
  | Some ms =>
      match py_iter ms with
      | None => inl (PyException "TypeError" "object is not iterable")
      | Some messages =>
          match sum_tokens messages with
          | inl e => inl e
          | inr estimated_input_tokens =>
              let estimated_output_tokens := default 2048 (max_tokens mc) in
              let input_cost :=
                (inject_Z estimated_input_tokens / 1000000 * input_price (mc_pricing mc))%Q in
              let output_cost :=
                (inject_Z estimated_output_tokens / 1000000 * output_price (mc_pricing mc))%Q in
              match add_image_cost (default 0%Q (image_input_price (mc_pricing mc)))
                      messages 0%Q with
              | inl e => inl e
              | inr image_cost =>
                  let total_cost := (input_cost + output_cost + image_cost)%Q in
                  inr (total_cost * (12 # 10))%Q
              end
          end
      end
  end.

Definition _estimate_cost (mc : model_config) : M Q :=
  req ← gets request; lift (estimate req mc).

(** [usage.get(k, 0)] as a number. *)
Definition usage_tokens (usage : pyval) (k : string) : exn + Q :=
  match usage with
  | VDict d =>
      match py_num (default (VInt 0) (dict_get d k)) with
      | Some n => inr n
      | None => inl (PyException "TypeError" "unsupported operand type(s) for /")
      end
  | _ => inl (PyException "AttributeError" "object has no attribute 'get'")
  end.

Definition response_usage (response : pyval) : exn + pyval :=
  match response with
  | VDict d => inr (default (VDict []) (dict_get d "usage"))
  | _ => inl (PyException "AttributeError" "object has no attribute 'get'")
  end.

Definition _calculate_actual_cost (response : pyval) (mc : model_config) : exn + Q :=
  match response_usage response with
  | inl e => inl e
  | inr usage =>
      match usage_tokens usage "prompt_tokens" with
      | inl e => inl e
      | inr input_tokens =>
          match usage_tokens usage "completion_tokens" with
          | inl e => inl e
          | inr output_tokens =>
              let input_cost := (input_tokens / 1000000 * input_price (mc_pricing mc))%Q in
              let output_cost := (output_tokens / 1000000 * output_price (mc_pricing mc))%Q in
              inr (input_cost + output_cost)%Q
          end
      end
  end.

(** ** app/providers: the adapters

    The three adapters share their shape: pop the messages out of the
    request, rewrite the list-valued contents, call the upstream with the
    messages and with what is left of the request as keyword arguments. *)

Definition no_get {A} : exn + A :=
  inl (PyException "AttributeError" "object has no attribute 'get'").

(** [content["image_url"]["url"]] and the like: two subscripts ending on a
    string. *)
Definition nested_str (c : pydict) (k1 k2 : string) : exn + (pydict * string) :=
  match dict_get c k1 with
  | None => inl (PyException "KeyError" k1)
  | Some (VDict u) =>
      match dict_get u k2 with
      | None => inl (PyException "KeyError" k2)
      | Some (VStr url) => inr (u, url)
      | Some _ => inl (PyException "AttributeError" "object has no attribute 'startswith'")
      end
  | Some _ => inl (PyException "TypeError" "indices must be integers")
  end.

Fixpoint after_comma (s : string) : option string :=
  match s with
  | EmptyString => None
  | String c s' => if Ascii.eqb c ","%char then Some s' else after_comma s'
  end.

Fixpoint before_comma (s : string) : string :=
  match s with
  | EmptyString => EmptyString
  | String c s' => if Ascii.eqb c ","%char then EmptyString else String c (before_comma s')
  end.

(** [_get_image_data]: [url.split(",")[1]] for a data URL, a download
    otherwise. *)
Definition _get_image_data (url : string) : exn + string :=
  if String.prefix "data:" url then
    match after_comma url with
    | Some rest => inr (before_comma rest)
    | None => inl (PyException "IndexError" "list index out of range")
    end
  else http_get_b64 E url.

(** What becomes of one content item: [None] when it is left out of
    [new_content]. *)
Definition openai_item (item : pyval) : exn + option pyval :=
  match item with
  | VDict c =>
      if py_eqb (default VNone (dict_get c "type")) (VStr "image_url") then
        match nested_str c "image_url" "url" with
        | inl e => inl e
        | inr (_, url) =>
            if String.prefix "data:" url then inr (Some item)
            else
              match _get_image_data url with
              | inl e => inl e
              | inr image_data =>
                  inr (Some (VDict
                    [("type", VStr "image_url");
                     ("image_url",
                      VDict [("url", VStr ("data:image/jpeg;base64," +:+ image_data))])]))
              end
        end
      else inr None
  | _ => no_get
  end.

Definition xai_item (item : pyval) : exn + option pyval :=
  match item with
  | VDict c =>
      if py_eqb (default VNone (dict_get c "type")) (VStr "image_url") then
        match nested_str c "image_url" "url" with
        | inl e => inl e
        | inr (u, url) =>
            if String.prefix "data:" url then inr (Some item)
            else
              match _get_image_data url with
              | inl e => inl e
              | inr image_data =>
                  inr (Some (VDict
                    [("type", VStr "image_url");
                     ("image_url",
                      VDict [("url", VStr ("data:image/jpeg;base64," +:+ image_data));
                             ("detail", default (VStr "high") (dict_get u "detail"))])]))
              end
        end
      else inr None
  | _ => no_get
  end.

Definition anthropic_item (item : pyval) : exn + option pyval :=
  match item with
  | VDict c =>
      if py_eqb (default VNone (dict_get c "type")) (VStr "image") then
        match nested_str c "source" "data" with
        | inl e => inl e
        | inr (_, data) =>
            match _get_image_data data with
            | inl e => inl e
            | inr image_data =>
                inr (Some (VDict
                  [("type", VStr "image");
                   ("source",
                    VDict [("type", VStr "base64"); ("media_type", VStr "image/jpeg");
                           ("data", VStr image_data)])]))
            end
        end
      else inr None
  | _ => no_get
  end.

Fixpoint new_content (f : pyval -> exn + option pyval) (items : list pyval)
  : exn + list pyval :=
  match items with
  | [] => inr []
  | item :: rest =>
      match f item with
      | inl e => inl e
      | inr o =>
          match new_content f rest with
          | inl e => inl e
          | inr rest' => inr (match o with Some i => i :: rest' | None => rest' end)
          end
      end
  end.

Definition rewrite_message (f : pyval -> exn + option pyval) (message : pyval)
  : exn + pyval :=
  match message with
  | VDict d =>
      match dict_get d "content" with
      | Some (VList items) =>
          match new_content f items with
          | inl e => inl e
          | inr items' => inr (VDict (dict_set d "content" (VList items')))
          end
      | _ => inr message
      end
  | _ => no_get
  end.

Fixpoint rewrite_list (f : pyval -> exn + option pyval) (l : list pyval)
  : exn + list pyval :=
  match l with
  | [] => inr []
  | m :: l' =>
      match rewrite_message f m with
      | inl e => inl e
      | inr m' =>
          match rewrite_list f l' with
          | inl e => inl e
          | inr l'' => inr (m' :: l'')
          end
      end
  end.

(** [for message in messages: ...] on whatever was popped. *)
Definition rewrite_messages (f : pyval -> exn + option pyval) (messages : pyval)
  : exn + pyval :=
  match messages with
  | VList l =>
      match rewrite_list f l with
      | inl e => inl e
      | inr l' => inr (VList l')
      end
  | _ =>
      match py_iter messages with
      | None => inl (PyException "TypeError" "object is not iterable")
      | Some [] => inr messages
      | Some (_ :: _) => no_get
      end
  end.

Definition item_rewriter (tag : string) : pyval -> exn + option pyval :=
  if String.eqb tag "anthropic" then anthropic_item
  else if String.eqb tag "xai" then xai_item
  else openai_item.

(** [provider.completion(request)] for the adapter registered under [tag]. *)
Definition completion (tag : string) : M pyval :=
  req ← gets request;
  let '(messages, req') := dict_pop req "messages" (VList []) in
  modify (set_request req');;
  messages' ← lift (rewrite_messages (item_rewriter tag) messages);
  n ← gets upstream_calls;
  modify (set_upstream_calls (S n));;
  lift (upstream E tag n messages' req').

Definition is_provider (tag : string) : bool :=
  String.eqb tag "openai" || String.eqb tag "anthropic" || String.eqb tag "xai".

(** ** app/core/request_handler.py: dispatch with retry *)

Definition append_attempt (a : retry_attempt) : M unit :=
  modify (fun s => set_retry_attempts (retry_attempts s ++ [a]) s).

(** The [for attempt in range(max_retries)] loop with [n] turns left.
    Falling out of the loop returns [None]. *)
Fixpoint retry_loop (tag : string) (rc : retry_config) (n : nat) (attempt : Z)
  : M pyval :=
  match n with
  | O => mret VNone
  | S n' =>
      try_except
        (response ← completion tag;
         (if 0 <? attempt then
            t ← gets now;
            append_attempt {| attempt := attempt + 1; ra_timestamp := t;
                              ra_status := "success"; ra_error := None |}
          else mret tt);;
         mret response)
        (fun e =>
           t ← gets now;
           append_attempt {| attempt := attempt + 1; ra_timestamp := t;
                             ra_status := "failed"; ra_error := Some (exn_str E e) |};;
           if attempt =? max_retries rc - 1 then raise e
           else (* asyncio.sleep(retry_delay / 1000) *)
             retry_loop tag rc n' (attempt + 1))
  end.

Definition _process_request_with_retry (mc : model_config) (ac : api_config)
  : M pyval :=
  let rc := ac_retry_config ac in
  if is_provider (provider mc) then
    retry_loop (provider mc) rc (Z.to_nat (max_retries rc)) 0
  else KeyError (provider mc).

(** ** app/core/request_handler.py: request log *)

Definition without_messages (req : pydict) : pydict :=
  List.filter (fun kv => negb (String.eqb (fst kv) "messages")) req.

(** [len(request.get("messages", []))] *)
Definition message_count (req : pydict) : exn + nat :=
  match py_len (default (VList []) (dict_get req "messages")) with
  | Some n => inr n
  | None => inl (PyException "TypeError" "object has no len()")
  end.

Fixpoint count_role (role : pyval) (types : list (pyval * Z)) : list (pyval * Z) :=
  match types with
  | [] => [(role, 1)]
  | (r, n) :: rest =>
      if py_eqb r role then (r, n + 1) :: rest else (r, n) :: count_role role rest
  end.

Definition message_role (msg : pyval) : exn + pyval :=
  match msg with
  | VDict d =>
      match default (VStr "unknown") (dict_get d "role") with
      | VList _ | VDict _ => inl (PyException "TypeError" "unhashable type")
      | role => inr role
      end
  | _ => no_get
  end.

Fixpoint count_roles (messages : list pyval) (types : list (pyval * Z))
  : exn + list (pyval * Z) :=
  match messages with
  | [] => inr types
  | msg :: rest =>
      match message_role msg with
      | inl e => inl e
      | inr role => count_roles rest (count_role role types)
      end
  end.

Definition message_types (req : pydict) : exn + list (pyval * Z) :=
  match py_iter (default (VList []) (dict_get req "messages")) with
  | None => inl (PyException "TypeError" "object is not iterable")
  | Some messages => count_roles messages []
  end.

Definition _log_request (response : pyval) (api_key : string) (cost : Q) : M unit :=
  req ← gets request;
  attempts ← gets retry_attempts;
  match dict_get req "model" with
  | None => KeyError "model"
  | Some model =>
      n ← lift (message_count req);
      usage ← lift (response_usage response);
      types ← lift (message_types req);
      log_request
        {| rl_api_key := api_key; rl_model_id := Some model;
           rl_parameters := without_messages req; rl_message_count := n;
           rl_tokens := Some usage; rl_cost := Some cost; rl_status := "completed";
           rl_retry_attempts := attempts; rl_message_types := types;
           rl_error := None |}
  end.

Definition _log_error (api_key : string) (e : exn) : M unit :=
  req ← gets request;
  n ← lift (message_count req);
  log_request
    {| rl_api_key := api_key; rl_model_id := dict_get req "model";
       rl_parameters := without_messages req; rl_message_count := n;
       rl_tokens := None; rl_cost := None; rl_status := "failed";
       rl_retry_attempts := []; rl_message_types := [];
       rl_error := Some e |}.

(** ** app/core/request_handler.py: the pipeline *)

Definition _get_api_config (api_key : string) : M (option api_config) :=
  o ← get_api_config api_key;
  match o with
  | None => mret None
  | Some ac =>
      match ac_status ac with
      | Some "active" => mret (Some ac)
      | _ => raise (HTTPException 403 "API key is not active")
      end
  end.

(** [handle] is the re-entry [self.handle_request(request, api_key)]. *)
Definition _handle_insufficient_balance (handle : M pyval) (ac : api_config)
  : M pyval :=
  if negb (default false (fallback_to_lower_tier (ac_retry_config ac))) then
    raise (HTTPException 402 "Insufficient balance")
  else
    req ← gets request;
    match dict_get req "model" with
    | None => KeyError "model"
    | Some model =>
        match get_model_config model with
        | None => raise (HTTPException 400 "Model not found")
        | Some current_model =>
            match find_lower_tier_model (capability_level current_model)
                    (capabilities current_model) with
            | None =>
                raise (HTTPException 402
                         "Insufficient balance and no lower tier model available")
            | Some lower_tier_model =>
                modify (fun s =>
                  set_request
                    (dict_set (request s) "model" (VStr (model_id lower_tier_model))) s);;
                handle
            end
        end
    end.

(** The body of the [try] block, steps 1 to 8. *)
Definition handle_steps (handle : M pyval) (api_key : string) : M pyval :=
  o ← _get_api_config api_key;
  match o with
  | None => raise (HTTPException 401 "Invalid API key")
  | Some ac =>
      req ← gets request;
      match dict_get req "model" with
      | None => KeyError "model"
      | Some model =>
          match get_model_config model with
          | None => raise (HTTPException 400 "Model not found")
          | Some mc =>
              check_rate_limits api_key (ac_rate_limits ac);;
              _validate_request mc;;
              estimated_cost ← _estimate_cost mc;
              enough ← check_balance api_key estimated_cost;
              if negb enough then _handle_insufficient_balance handle ac
              else
                response ← _process_request_with_retry mc ac;
                actual_cost ← lift (_calculate_actual_cost response mc);
                deduct_balance api_key actual_cost;;
                _log_request response api_key actual_cost;;
                mret response
          end
      end
  end.

(** [handle_request]; [depth] bounds the number of activations of the
    function, the first one included, and a run that would need one more
    has no result. *)
Fixpoint handle_request (depth : nat) (api_key : string) : M pyval :=
  match depth with
  | O => fun _ => None
  | S depth' =>
      modify (set_retry_attempts []);;
      try_except
        (handle_steps (handle_request depth' api_key) api_key)
        (fun e => _log_error api_key e;; raise e)
  end.

(** ** app/main.py *)

Definition validate_api_key (api_key : string) : exn + string :=
  if String.prefix (API_KEY_PREFIX E) api_key then inr api_key
  else inl (HTTPException 401 "Invalid API key format").

(** The route function; [body] is [request.dict()]. *)
Definition create_chat_completion (depth : nat) (body : pydict) (api_key : string)
  : M pyval :=
  modify (set_request body);;
  try_except (handle_request depth api_key)
    (fun e => raise (HTTPException 500 (exn_str E e))).

Record error_body := {
  eb_message : string;
  eb_type : string;
  eb_code : Z
}.

Inductive http_response :=
| Response200 (body : pyval)
| JSONResponse (status_code : Z) (content : error_body)
| InternalServerError.

(** [http_exception_handler], with the framework's answer to an exception
    that is not an [HTTPException]. *)
Definition http_exception_handler (e : exn) : http_response :=
  match e with
  | HTTPException code detail =>
      JSONResponse code {| eb_message := detail; eb_type := "api_error"; eb_code := code |}
  | PyException _ _ => InternalServerError
  end.

(** POST /v1/chat/completions: the dependency, the route, the handler. *)
Definition post_chat_completions (depth : nat) (body : pydict) (header : string)
  (s : State) : option (http_response * State) :=
  match validate_api_key header with
  | inl e => Some (http_exception_handler e, s)
  | inr api_key =>
      match create_chat_completion depth body api_key s with
      | None => None
      | Some (inl e, s') => Some (http_exception_handler e, s')
      | Some (inr response, s') => Some (Response200 response, s')
      end
  end.

Definition response_status (r : http_response) : Z :=
  match r with
  | Response200 _ => 200
  | JSONResponse c _ => c
  | InternalServerError => 500
  end.

End Pipeline.

(** ** app/models/parameter_validator.py

    The stand-alone [_validate_request] of this module ("updates to the
    method of request_handler.py", says its header) is called from
    nowhere.  It opens with a check of the model's input types; what
    follows the check calls a class that the repository does not define,
    so only the check is embedded. *)

Fixpoint check_items (input_types : list string) (model : string) (items : list pyval)
  : exn + unit :=
  match items with
  | [] => inr tt
  | VDict d :: rest =>
      let ty := default VNone (dict_get d "type") in
      if (py_eqb ty (VStr "image") || py_eqb ty (VStr "image_url"))
         && negb (existsb (String.eqb "image") input_types)
      then inl (HTTPException 400 ("Model " +:+ model +:+ " does not support image input"))
      else check_items input_types model rest
  | _ :: _ => no_get
  end.

Fixpoint check_messages (input_types : list string) (model : string)
    (messages : list pyval) : exn + unit :=
  match messages with
  | [] => inr tt
  | VDict d :: rest =>
      match dict_get d "content" with
      | Some (VList items) =>
          match check_items input_types model items with
          | inl e => inl e
          | inr _ => check_messages input_types model rest
          end
      | _ => check_messages input_types model rest
      end
  | _ :: _ => no_get
  end.

Definition capability_check (input_types : list string) (model : string)
    (req : pydict) : exn + unit :=
  match dict_get req "messages" with
  | None => inr tt
  | Some ms =>
      match py_iter ms with
      | None => inl (PyException "TypeError" "object is not iterable")
      | Some messages => check_messages input_types model messages
      end
  end.

(** * The formulas of the specification

    Written from the words of the specification, to be compared with the
    functions above. *)

(** The number of image items of a message. *)
Definition image_count (d : pydict) : nat :=
  match default (VList []) (dict_get d "content") with
  | VList items => length (List.filter is_image_item items)
  | _ => 0%nat
  end.

(** [estimate]: 1.2 × (input + output + image), where every message
    contributes [rounding (len / 4)] tokens. *)
Definition estimate_formula (rounding : Q -> Z) (E : Env) (messages : list pydict)
    (mc : model_config) : Q :=
  let content_length (d : pydict) : Z :=
    Z.of_nat (String.length (py_str E (default (VStr "") (dict_get d "content")))) in
  let tokens :=
    fold_right (fun d acc => rounding (inject_Z (content_length d) / 4)%Q + acc) 0 messages in
  let images := fold_right (fun d acc => (image_count d + acc)%nat) 0%nat messages in
  let input_cost := (inject_Z tokens * input_price (mc_pricing mc) / 1000000)%Q in
  let output_cost :=
    (inject_Z (default 2048%Z (max_tokens mc)) * output_price (mc_pricing mc) / 1000000)%Q in
  let image_cost :=
    (inject_Z (Z.of_nat images) * default 0%Q (image_input_price (mc_pricing mc)))%Q in
  ((12 # 10) * (input_cost + output_cost + image_cost))%Q.

(** What one run of the loop may append: entries numbered from
    [first + 1] on, all failed except possibly the last one, and a
    success only in a turn after the first of the whole loop. *)
Definition appended_ok (first : Z) (turns : nat) (new : list retry_attempt) : Prop :=
  (length new ≤ turns)%nat
  ∧ ∀ (i : nat) (a : retry_attempt), new !! i = Some a →
      attempt a = first + Z.of_nat i + 1
      ∧ (ra_status a = "failed"
         ∨ (ra_status a = "success" ∧ S i = length new ∧ 0 < first + Z.of_nat i)).

(** The outcomes of the dispatch attempts of one call, in order, when at
    most [n] are allowed: the adapter is called again after a failure and
    not after a success. *)
Fixpoint attempt_outcomes (E : Env) (tag : string) (n : nat) (s : State)
  : list (exn + pyval) :=
  match n with
  | O => []
  | S n' =>
      match completion E tag s with
      | Some (inl e, s1) => inl e :: attempt_outcomes E tag n' s1
      | Some (inr response, _) => [inr response]
      | None => []
      end
  end.

(** The entries these outcomes call for, the first outcome being that of
    attempt [number]: one with status failed and the error's text for
    every failure, and one with status success for a success that is not
    the first attempt. *)
Fixpoint attempt_entries (E : Env) (t : datetime) (number : Z)
    (outcomes : list (exn + pyval)) : list retry_attempt :=
  match outcomes with
  | [] => []
  | inl e :: rest =>
      {| attempt := number; ra_timestamp := t; ra_status := "failed";
         ra_error := Some (exn_str E e) |}
      :: attempt_entries E t (number + 1) rest
  | inr _ :: rest =>
      (if 1 <? number then
         [{| attempt := number; ra_timestamp := t; ra_status := "success";
             ra_error := None |}]
       else [])
      ++ attempt_entries E t (number + 1) rest
  end.

(** * Sample data: the seed of [ModelManager.init_default_configs] *)

Definition float_param (mn mx dflt : Q) : param_config :=
  {| p_type := "float"; p_min := Some (VFloat mn); p_max := Some (VFloat mx);
     p_values := []; p_default := Some (VFloat dflt) |}.

Definition int_param (mn mx dflt : Z) : param_config :=
  {| p_type := "int"; p_min := Some (VInt mn); p_max := Some (VInt mx);
     p_values := []; p_default := Some (VInt dflt) |}.

Definition all_capabilities : list (string * bool) :=
  [("text", true); ("image", true); ("reply_mode", true)].

Definition gpt_4o : model_config :=
  {| model_id := "gpt-4o"; provider := "openai"; capabilities := all_capabilities;
     mc_pricing := {| input_price := 15; output_price := 50;
                      image_input_price := Some (765 # 100000) |};
     capability_level := 3; max_tokens := Some 128000;
     parameters :=
       [("temperature", float_param 0 2 1); ("max_tokens", int_param 1 4096 2048);
        ("top_p", float_param 0 1 1);
        ("frequency_penalty", float_param (-2) 2 0);
        ("presence_penalty", float_param (-2) 2 0);
        ("response_format",
         {| p_type := "enum"; p_min := None; p_max := None;
            p_values := [VStr "text"; VStr "json_object"];
            p_default := Some (VStr "text") |})];
     mc_status := "active" |}.

Definition grok_2_vision : model_config :=
  {| model_id := "grok-2-vision-1212"; provider := "xai"; capabilities := all_capabilities;
     mc_pricing := {| input_price := 2; output_price := 2;
                      image_input_price := Some 10%Q |};
     capability_level := 1; max_tokens := Some 32768;
     parameters :=
       [("temperature", float_param 0 2 1); ("max_tokens", int_param 1 32768 2048);
        ("top_p", float_param 0 1 1);
        ("frequency_penalty", float_param (-2) 2 0);
        ("presence_penalty", float_param (-2) 2 0)];
     mc_status := "active" |}.

Definition normal_limits : rate_limits :=
  {| requests_per_minute := 60; requests_per_day := 10000;
     requests_per_month := 100000; concurrent_requests := 10 |}.

Definition default_retry : retry_config :=
  {| max_retries := 3; retry_delay := 1000; fallback_to_lower_tier := Some true |}.

Definition sk_default (b : Q) : api_config :=
  {| api_key := "sk-default"; tier := "normal"; balance := b;
     ac_rate_limits := normal_limits; ac_retry_config := default_retry;
     ac_status := Some "active" |}.

Definition some_time : datetime :=
  {| dt_year := 2024; dt_month := 5; dt_date := "2024-05-17"; dt_minute := 42 |}.

Definition user_message (content : pyval) : pyval :=
  VDict [("role", VStr "user"); ("content", content)].

(** [CompletionRequest(model=..., messages=[...]).dict()] *)
Definition completion_request (model : string) (messages : list pyval) : pydict :=
  [("model", VStr model); ("messages", VList messages);
   ("temperature", VFloat 1); ("max_tokens", VNone); ("top_p", VFloat 1);
   ("frequency_penalty", VInt 0); ("presence_penalty", VInt 0);
   ("response_format", VNone); ("stream", VBool false)].

Definition usage_response (prompt completion : Z) : pyval :=
  VDict [("id", VStr "chatcmpl-1"); ("object", VStr "chat.completion");
         ("usage", VDict [("prompt_tokens", VInt prompt);
                          ("completion_tokens", VInt completion);
                          ("total_tokens", VInt (prompt + completion))])].

(** A test double for the outside world: the upstream is the argument. *)
Definition stub_env (models : list model_config)
    (up : string -> nat -> pyval -> pydict -> exn + pyval) : Env :=
  {| API_KEY_PREFIX := "sk-";
     py_repr := fun _ => "<object>";
     py_float_of_string := fun _ => None;
     exn_str := fun e =>
       match e with
       | HTTPException code detail => pretty code +:+ ": " +:+ detail
       | PyException _ msg => msg
       end;
     http_get_b64 := fun _ => inr "AAAA";
     upstream := up;
     db_models := models |}.

Definition always_ok : string -> nat -> pyval -> pydict -> exn + pyval :=
  fun _ _ _ _ => inr (usage_response 5 10).

Definition start_state (keys : list api_config) (req : pydict) : State :=
  {| redis := {| Redis.kv := ∅; Redis.ttl := ∅ |};
     db_api_keys := keys; db_requests := []; db_transactions := [];
     upstream_calls := 0; now := some_time; request := req;
     retry_attempts := [] |}.

Definition seed_env : Env := stub_env [gpt_4o; grok_2_vision] always_ok.

Definition hi_message : pydict := [("role", VStr "user"); ("content", VStr "hi")].

Definition hi_request : pydict := completion_request "gpt-4o" [VDict hi_message].

(** A computation that always ends, raising or returning. *)
Definition total {A} (m : M A) : Prop := ∀ s, is_Some (m s).

(** A model without image input, and a request that carries an image. *)
Definition text_only : model_config :=
  {| model_id := "text-only"; provider := "openai";
     capabilities := [("text", true); ("image", false); ("reply_mode", true)];
     mc_pricing := {| input_price := 1; output_price := 2;
                      image_input_price := None |};
     capability_level := 1; max_tokens := Some 4096;
     parameters := [("temperature", float_param 0 2 1)];
     mc_status := "active" |}.

Definition image_item (url : string) : pyval :=
  VDict [("type", VStr "image_url"); ("image_url", VDict [("url", VStr url)])].

Definition text_item (text : string) : pyval :=
  VDict [("type", VStr "text"); ("text", VStr text)].

Definition image_request : pydict :=
  completion_request "text-only"
    [user_message (VList [image_item "https://example.com/image.jpg";
                          text_item "What's in this image?"])].

(** An upstream that is down for the first call and afterwards answers
    with the number of messages it was sent as [prompt_tokens]. *)
Definition flaky_echo : string -> nat -> pyval -> pydict -> exn + pyval :=
  fun _ n messages _ =>
    match n with
    | O => inl (PyException "Exception" "upstream unavailable")
    | S _ => inr (usage_response (Z.of_nat (default 0%nat (py_len messages))) 10)
    end.

Definition flaky_env : Env := stub_env [gpt_4o; grok_2_vision] flaky_echo.

Definition with_status (st : option string) (c : api_config) : api_config :=
  {| api_key := api_key c; tier := tier c; balance := balance c;
     ac_rate_limits := ac_rate_limits c; ac_retry_config := ac_retry_config c;
     ac_status := st |}.

Definition with_limits (l : rate_limits) (c : api_config) : api_config :=
  {| api_key := api_key c; tier := tier c; balance := balance c;
     ac_rate_limits := l; ac_retry_config := ac_retry_config c;
     ac_status := ac_status c |}.

Definition with_retry (r : retry_config) (c : api_config) : api_config :=
  {| api_key := api_key c; tier := tier c; balance := balance c;
     ac_rate_limits := ac_rate_limits c; ac_retry_config := r;
     ac_status := ac_status c |}.

Definition one_per_minute : rate_limits :=
  {| requests_per_minute := 1; requests_per_day := 10000;
     requests_per_month := 100000; concurrent_requests := 10 |}.

Definition one_at_a_time : rate_limits :=
  {| requests_per_minute := 60; requests_per_day := 10000;
     requests_per_month := 100000; concurrent_requests := 1 |}.

Definition no_fallback : retry_config :=
  {| max_retries := 3; retry_delay := 1000; fallback_to_lower_tier := Some false |}.

(** The concurrency gauge of a credential, and the computations that
    leave it as they found it. *)
Definition gauge (k : string) (s : State) : option Z :=
  Redis.get (redis s) (concurrent_key k).

Definition keeps_gauge (k : string) {A} (m : M A) : Prop :=
  ∀ s out s', m s = Some (out, s') → gauge k s' = gauge k s.

(** * Further definitions

    The rest of [BillingSystem], what is left of [ModelManager] and of the
    routes of [app/main.py], and the notions used to state how the
    operations compose. *)







(** ** app/models/model_manager.py: seed and listing *)









(** [get_active_models]: [find({"status": "active"})]. *)
Definition get_active_models (models : list model_config) : list model_config :=
  List.filter (fun m => String.eqb (mc_status m) "active") models.

(** ** app/main.py: the admin route *)









(** A computation all of whose runs relate the state they start from to
    the state they leave, by [R]. *)
Definition respects (R : State -> State -> Prop) {A} (m : M A) : Prop :=
  ∀ s out s', m s = Some (out, s') → R s s'.






(** The three collections of the catalogue store that a request may
    write are as they were. *)
Definition same_db (s s' : State) : Prop :=
  db_api_keys s' = db_api_keys s
  ∧ db_transactions s' = db_transactions s
  ∧ db_requests s' = db_requests s.

(** The request of [k] was charged once and logged once as completed. *)
Definition charged_once (k : string) (s s' : State) : Prop :=
  ∃ user tx entry,
    find_api_key k (db_api_keys s) = Some user
    ∧ db_api_keys s'
      = update_one_balance k (balance user - amount tx)%Q (db_api_keys s)
    ∧ db_transactions s' = db_transactions s ++ [tx]
    ∧ tx_api_key tx = k
    ∧ transaction_type tx = "deduction"
    ∧ old_balance tx = balance user
    ∧ new_balance tx = (balance user - amount tx)%Q
    ∧ db_requests s' = db_requests s ++ [entry]
    ∧ rl_api_key entry = k
    ∧ rl_status entry = "completed"
    ∧ rl_cost entry = Some (amount tx).

(** * Properties *)

(** ** Rate limiter *)

Lemma minute_day_ne k t : minute_key k t ≠ day_key k t.
Proof. unfold minute_key, day_key. cbn. discriminate. Qed.

Lemma minute_month_ne k t : minute_key k t ≠ month_key k t.
Proof. unfold minute_key, month_key. cbn. discriminate. Qed.

Lemma day_month_ne k t : day_key k t ≠ month_key k t.
Proof. unfold day_key, month_key. cbn. discriminate. Qed.

Lemma concurrent_minute_ne k t : concurrent_key k ≠ minute_key k t.
Proof. unfold concurrent_key, minute_key. cbn. discriminate. Qed.

Lemma concurrent_day_ne k t : concurrent_key k ≠ day_key k t.
Proof. unfold concurrent_key, day_key. cbn. discriminate. Qed.

Lemma concurrent_month_ne k t : concurrent_key k ≠ month_key k t.
Proof. unfold concurrent_key, month_key. cbn. discriminate. Qed.

(** The counter store after the three window increments of one admission. *)
Definition windows_bumped (api_key : string) (t : datetime) (r : Redis.t) : Redis.t :=
  let count k := default 0 (Redis.kv r !! k) in
  {| Redis.kv :=
       <[month_key api_key t := count (month_key api_key t) + 1]>
         (<[day_key api_key t := count (day_key api_key t) + 1]>
            (<[minute_key api_key t := count (minute_key api_key t) + 1]> (Redis.kv r)));
     Redis.ttl :=
       <[month_key api_key t := 2592000]>
         (<[day_key api_key t := 86400]>
            (<[minute_key api_key t := 60]> (Redis.ttl r))) |}.

Lemma execute_window_commands k t r :
  Redis.execute r (window_commands k t) =
  ([default 0 (Redis.kv r !! minute_key k t) + 1; 1;
    default 0 (Redis.kv r !! day_key k t) + 1; 1;
    default 0 (Redis.kv r !! month_key k t) + 1; 1],
   windows_bumped k t r).
Proof.
  pose proof (minute_day_ne k t) as Hmd.
  pose proof (minute_month_ne k t) as Hmm.
  pose proof (day_month_ne k t) as Hdm.
  destruct r as [kv ttl].
  unfold window_commands, windows_bumped; cbn [Redis.execute Redis.run Redis.incr Redis.kv Redis.ttl].
  unfold Redis.expire; cbn [Redis.kv Redis.ttl].
  rewrite lookup_insert_eq; cbn [Redis.kv Redis.ttl].
  rewrite (lookup_insert_ne _ (minute_key k t) (day_key k t)) by done.
  rewrite lookup_insert_eq; cbn [Redis.kv Redis.ttl].
  rewrite (lookup_insert_ne _ (day_key k t) (month_key k t)) by done.
  rewrite (lookup_insert_ne _ (minute_key k t) (month_key k t)) by done.
  rewrite lookup_insert_eq; cbn [Redis.kv Redis.ttl].
  reflexivity.
Qed.

Lemma check_rate_limits_unfold k limits s :
  check_rate_limits k limits s =
  if concurrent_requests limits <=? default 0 (Redis.kv (redis s) !! concurrent_key k) then
    Some (inl (HTTPException 429 "Too many concurrent requests"), s)
  else
    let r' := windows_bumped k (now s) (redis s) in
    let count key := default 0 (Redis.kv (redis s) !! key) in
    Some (if requests_per_minute limits <? count (minute_key k (now s)) + 1 then
            inl (HTTPException 429 "Rate limit exceeded (per minute)")
          else if requests_per_day limits <? count (day_key k (now s)) + 1 then
            inl (HTTPException 429 "Rate limit exceeded (per day)")
          else if requests_per_month limits <? count (month_key k (now s)) + 1 then
            inl (HTTPException 429 "Rate limit exceeded (per month)")
          else inr tt,
          set_redis r' s).
Proof.
  unfold check_rate_limits, mbind, M_bind, gets, Redis.get; cbv beta iota.
  destruct (concurrent_requests limits <=? _); [reflexivity|].
  rewrite execute_window_commands. cbv beta iota zeta.
  unfold result_at, modify, raise, mret, M_ret; cbn [lookup list_lookup default].
  repeat (destruct (_ <? _); try reflexivity).
Qed.

(** C5. [check_rate_limits] first reads the concurrency counter and, when
    it has reached [concurrent_requests], raises 429 and leaves the whole
    state (every window counter included) as it was.  Otherwise the
    minute, day and month counters are each incremented by one, their
    timeouts set to 60, 86400 and 2592000 seconds, and the call raises 429
    exactly when one of the three new values exceeds its quota; the
    increments stay in place in both cases. *)
Theorem check_rate_limits_admission (k : string) (limits : rate_limits) (s : State) :
  let count key := default 0 (Redis.kv (redis s) !! key) in
  let t := now s in
  let bumped :=
    {| Redis.kv :=
         <[month_key k t := count (month_key k t) + 1]>
           (<[day_key k t := count (day_key k t) + 1]>
              (<[minute_key k t := count (minute_key k t) + 1]> (Redis.kv (redis s))));
       Redis.ttl :=
         <[month_key k t := 2592000]>
           (<[day_key k t := 86400]>
              (<[minute_key k t := 60]> (Redis.ttl (redis s)))) |} in
  if concurrent_requests limits <=? count (concurrent_key k) then
    check_rate_limits k limits s =
    Some (inl (HTTPException 429 "Too many concurrent requests"), s)
  else
    ∃ out,
      check_rate_limits k limits s = Some (out, set_redis bumped s)
      ∧ (out = inr tt ∨ ∃ detail, out = inl (HTTPException 429 detail))
      ∧ (out = inr tt ↔
           count (minute_key k t) + 1 ≤ requests_per_minute limits
           ∧ count (day_key k t) + 1 ≤ requests_per_day limits
           ∧ count (month_key k t) + 1 ≤ requests_per_month limits).
Proof.
  cbv zeta. rewrite check_rate_limits_unfold.
  destruct (concurrent_requests limits <=? _); [reflexivity|].
  cbv zeta.
  destruct (requests_per_minute limits <? _) eqn:H1;
    [apply Z.ltb_lt in H1 | apply Z.ltb_ge in H1].
  { eexists; split; [reflexivity|]. split; [right; eauto|].
    split; [discriminate|]. lia. }
  destruct (requests_per_day limits <? _) eqn:H2;
    [apply Z.ltb_lt in H2 | apply Z.ltb_ge in H2].
  { eexists; split; [reflexivity|]. split; [right; eauto|].
    split; [discriminate|]. lia. }
  destruct (requests_per_month limits <? _) eqn:H3;
    [apply Z.ltb_lt in H3 | apply Z.ltb_ge in H3].
  { eexists; split; [reflexivity|]. split; [right; eauto|].
    split; [discriminate|]. lia. }
  eexists; split; [reflexivity|]. split; [left; reflexivity|].
  split; [intros _; lia | reflexivity].
Qed.

(** ** Billing *)

Lemma find_update_one_balance k b l user :
  find_api_key k l = Some user →
  find_api_key k (update_one_balance k b l) = Some (with_balance b user).
Proof.
  unfold find_api_key. induction l as [|c l IH]; cbn; [discriminate|].
  destruct (String.eqb (api_key c) k) eqn:Hk; cbn.
  - intros [= <-]. cbn. now rewrite Hk.
  - rewrite Hk. exact IH.
Qed.

Lemma deduct_balance_run k cost s user :
  find_api_key k (db_api_keys s) = Some user →
  deduct_balance k cost s =
  Some (inr tt,
        set_db_transactions
          (db_transactions s ++
             [{| tx_timestamp := now s; tx_api_key := k; amount := cost;
                 old_balance := balance user;
                 new_balance := (balance user - cost)%Q;
                 transaction_type := "deduction" |}])
          (set_db_api_keys
             (update_one_balance k (balance user - cost)%Q (db_api_keys s)) s)).
Proof.
  intros Hu. unfold deduct_balance, mbind, M_bind, gets. cbn. rewrite Hu. reflexivity.
Qed.

(** C8. After [deduct_balance] on a stored credential the stored balance
    is the previous balance minus the cost, and exactly one transaction is
    appended; it records the cost as amount, the previous and the new
    balance, the kind "deduction", and [new_balance + amount] equals the
    previous balance. *)
Theorem deduct_balance_ledger (k : string) (cost : Q) (s : State) (user : api_config) :
  find_api_key k (db_api_keys s) = Some user →
  ∃ s' user' tx,
    deduct_balance k cost s = Some (inr tt, s')
    ∧ find_api_key k (db_api_keys s') = Some user'
    ∧ balance user' = (balance user - cost)%Q
    ∧ db_transactions s' = db_transactions s ++ [tx]
    ∧ tx_api_key tx = k
    ∧ amount tx = cost
    ∧ old_balance tx = balance user
    ∧ new_balance tx = balance user'
    ∧ (new_balance tx + amount tx == old_balance tx)%Q
    ∧ transaction_type tx = "deduction".
Proof.
  intros Hu. eexists _, _, _.
  split; [apply (deduct_balance_run _ _ _ _ Hu)|].
  split; [cbn; apply find_update_one_balance; exact Hu|].
  do 6 (split; [reflexivity|]).
  split; [|reflexivity].
  cbn [new_balance amount old_balance]. ring.
Qed.

Lemma deduct_balance_ledger_witness :
  find_api_key "sk-default" (db_api_keys (start_state [sk_default 100] hi_request))
  = Some (sk_default 100)
  ∧ ∃ s' user' tx,
      deduct_balance "sk-default" (575 # 1000000) (start_state [sk_default 100] hi_request)
      = Some (inr tt, s')
      ∧ find_api_key "sk-default" (db_api_keys s') = Some user'
      ∧ balance user' = (balance (sk_default 100) - (575 # 1000000))%Q
      ∧ db_transactions s'
        = db_transactions (start_state [sk_default 100] hi_request) ++ [tx]
      ∧ tx_api_key tx = "sk-default"
      ∧ amount tx = (575 # 1000000)%Q
      ∧ old_balance tx = balance (sk_default 100)
      ∧ new_balance tx = balance user'
      ∧ (new_balance tx + amount tx == old_balance tx)%Q
      ∧ transaction_type tx = "deduction".
Proof.
  split; [reflexivity|].
  apply (deduct_balance_ledger "sk-default" (575 # 1000000)
           (start_state [sk_default 100] hi_request) (sk_default 100)).
  reflexivity.
Defined.

(** ** Cost estimation *)

Section Estimate.

Variable E : Env.

Lemma Qfloor_quarter (n : Z) : Qfloor (inject_Z n / 4) = n / 4.
Proof. unfold Qfloor, Qdiv, Qmult, Qinv, inject_Z. cbn. now rewrite Z.mul_1_r. Qed.

Lemma sum_tokens_dicts (ds : list pydict) :
  sum_tokens E (map VDict ds) =
  inr (fold_right
         (fun d acc =>
            Z.of_nat (String.length (py_str E (default (VStr "") (dict_get d "content")))) / 4
            + acc) 0 ds).
Proof. induction ds as [|d ds IH]; cbn; [reflexivity|]. now rewrite IH. Qed.

Lemma fold_add_price (price : Q) (items : list pyval) (acc : Q) :
  (fold_left (fun c _ => c + price) items acc
   == acc + inject_Z (Z.of_nat (length items)) * price)%Q.
Proof.
  revert acc. induction items as [|i items IH]; intros acc.
  - cbn. ring.
  - cbn [fold_left length]. rewrite IH, Nat2Z.inj_succ. unfold Z.succ.
    rewrite inject_Z_plus. ring.
Qed.

Lemma add_image_cost_dicts (price : Q) (ds : list pydict) (acc : Q) :
  ∃ c, add_image_cost price (map VDict ds) acc = inr c
       ∧ (c == acc + inject_Z (Z.of_nat
                 (fold_right (fun d n => (image_count d + n)%nat) 0%nat ds)) * price)%Q.
Proof.
  revert acc. induction ds as [|d ds IH]; intros acc.
  - exists acc. split; [reflexivity|]. cbn. ring.
  - cbn [map add_image_cost image_items fold_right].
    assert (Hi : ∃ items, image_items (VDict d) = inr items
                          ∧ length items = image_count d).
    { unfold image_items, image_count.
      destruct (default (VList []) (dict_get d "content")); eauto. }
    destruct Hi as (items & Hi & Hlen). cbn [image_items] in Hi. rewrite Hi.
    destruct (IH (fold_left (fun c _ => c + price) items acc)%Q) as (c & Hc & Heq).
    exists c. split; [exact Hc|].
    rewrite Heq, fold_add_price, Hlen, Nat2Z.inj_add, inject_Z_plus. ring.
Qed.

End Estimate.

Lemma tokens_floor (E : Env) (ds : list pydict) :
  fold_right
    (fun d acc =>
       Qfloor (inject_Z (Z.of_nat (String.length
         (py_str E (default (VStr "") (dict_get d "content"))))) / 4) + acc) 0 ds
  = fold_right
    (fun d acc =>
       Z.of_nat (String.length
         (py_str E (default (VStr "") (dict_get d "content")))) / 4 + acc) 0 ds.
Proof.
  induction ds as [|d ds IH]; cbn [fold_right]; [reflexivity|].
  now rewrite Qfloor_quarter, IH.
Qed.

(** C4, as the code has it. On a request whose messages are dictionaries
    the estimate is 1.2 × (input_cost + output_cost + image_cost), where
    input_cost = Σ floor(len(str(content)) / 4) × input_price / 1e6 (the
    length is divided with [//], rounding down), output_cost =
    max_tokens × output_price / 1e6 and image_cost = (number of image
    items) × image_input_price. *)
Theorem estimate_formula_floor (E : Env) (req : pydict) (mc : model_config)
    (ds : list pydict) :
  dict_get req "messages" = Some (VList (map VDict ds)) →
  ∃ cost, estimate E req mc = inr cost
          ∧ (cost == estimate_formula Qfloor E ds mc)%Q.
Proof.
  intros Hm. unfold estimate. rewrite Hm. cbn [py_iter].
  rewrite sum_tokens_dicts.
  destruct (add_image_cost_dicts (default 0%Q (image_input_price (mc_pricing mc))) ds 0%Q)
    as (c & Hc & Heq).
  rewrite Hc. eexists; split; [reflexivity|].
  rewrite Heq. unfold estimate_formula. rewrite tokens_floor.
  field.
Qed.

Lemma estimate_formula_floor_witness :
  dict_get hi_request "messages" = Some (VList (map VDict [hi_message]))
  ∧ ∃ cost, estimate seed_env hi_request gpt_4o = inr cost
            ∧ (cost == estimate_formula Qfloor seed_env [hi_message] gpt_4o)%Q.
Proof.
  split; [reflexivity|].
  apply (estimate_formula_floor seed_env hi_request gpt_4o [hi_message]).
  reflexivity.
Defined.

(** C4, as stated, fails: for the single message "hi" the code counts
    2 // 4 = 0 input tokens where the rounded-up quotient is 1, so the
    estimate differs from the formula with ceil. *)
Lemma estimate_not_ceiling :
  ∃ cost, estimate seed_env hi_request gpt_4o = inr cost
          ∧ ¬ (cost == estimate_formula Qceiling seed_env [hi_message] gpt_4o)%Q.
Proof.
  eexists; split; [reflexivity|].
  vm_compute. discriminate.
Qed.

(** ** Validation *)

Section Validation.

Variable E : Env.

Lemma Qtrunc_inject_Z (z : Z) : Qtrunc (inject_Z z) = z.
Proof.
  unfold Qtrunc. destruct (Qle_bool 0 (inject_Z z)).
  - apply Qfloor_Z.
  - apply Qceiling_Z.
Qed.

Lemma coerce_param_idem k pc v v' :
  coerce_param E k pc v = (inr tt, v') → coerce_param E k pc v' = (inr tt, v').
Proof.
  unfold coerce_param.
  destruct (String.eqb (p_type pc) "float").
  { destruct (py_float E v) as [q|]; [|discriminate].
    intros [= Hr <-]. cbn. now rewrite Hr. }
  destruct (String.eqb (p_type pc) "int").
  { destruct (py_float E v) as [q|]; [|discriminate].
    intros [= Hr <-]. cbn. rewrite Qtrunc_inject_Z. now rewrite Hr. }
  destruct (String.eqb (p_type pc) "enum").
  { destruct (existsb (py_eqb v) (p_values pc)) eqn:Hin; [|discriminate].
    intros [= <-]. now rewrite Hin. }
  intros [= <-]. reflexivity.
Qed.

Lemma coerce_param_None k pc v :
  coerce_param E k pc v = (inr tt, VNone) → v = VNone.
Proof.
  unfold coerce_param.
  destruct (String.eqb (p_type pc) "float").
  { destruct (py_float E v); discriminate. }
  destruct (String.eqb (p_type pc) "int").
  { destruct (py_float E v); discriminate. }
  destruct (String.eqb (p_type pc) "enum").
  { destruct (existsb (py_eqb v) (p_values pc)); [|discriminate]. now intros [= ->]. }
  now intros [= ->].
Qed.

Lemma coerce_param_list k pc l v' :
  coerce_param E k pc (VList l) = (inr tt, v') → v' = VList l.
Proof.
  unfold coerce_param. cbn.
  destruct (String.eqb (p_type pc) "float"); [discriminate|].
  destruct (String.eqb (p_type pc) "int"); [discriminate|].
  destruct (String.eqb (p_type pc) "enum").
  { destruct (existsb _ _); [|discriminate]. now intros [= <-]. }
  now intros [= <-].
Qed.

Lemma fill_default_fst allowed kv : fst (fill_default allowed kv) = fst kv.
Proof.
  unfold fill_default. destruct kv as [k v]; cbn.
  destruct v; try reflexivity.
  destruct (assoc allowed k) as [pc|]; [|reflexivity].
  destruct (p_default pc); reflexivity.
Qed.

Lemma fill_default_not_None allowed k v :
  v ≠ VNone → fill_default allowed (k, v) = (k, v).
Proof. unfold fill_default; cbn. destruct v; congruence. Qed.

Lemma fill_default_undeclared allowed k v :
  assoc allowed k = None → fill_default allowed (k, v) = (k, v).
Proof. unfold fill_default; cbn. intros ->. now destruct v. Qed.

(** A [None] that survives the first loop survives it again. *)
Lemma fill_default_None allowed k v :
  fill_default allowed (k, v) = (k, VNone) →
  fill_default allowed (k, VNone) = (k, VNone).
Proof.
  destruct v; try (unfold fill_default; cbn; discriminate).
  trivial.
Qed.

Lemma pyval_None_dec (v : pyval) : v = VNone ∨ v ≠ VNone.
Proof. destruct v; (now left) || (right; discriminate). Qed.

Lemma coerce_fill_idem allowed req req' :
  coerce_items E allowed (map (fill_default allowed) req) = (inr tt, req') →
  coerce_items E allowed (map (fill_default allowed) req') = (inr tt, req').
Proof.
  revert req'. induction req as [|[k v] req IH]; intros req'.
  - cbn. now intros [= <-].
  - cbn [map].
    destruct (fill_default allowed (k, v)) as [k1 v1] eqn:Hf.
    assert (k1 = k) as -> by (pose proof (fill_default_fst allowed (k, v)) as Hk;
                              now rewrite Hf in Hk).
    cbn [coerce_items].
    destruct (assoc allowed k) as [pc|] eqn:Ha.
    + destruct (coerce_param E k pc v1) as [[e|[]] v2] eqn:Hc; [discriminate|].
      destruct (coerce_items E allowed (map (fill_default allowed) req))
        as [r rest'] eqn:Hrest.
      intros [= -> <-].
      specialize (IH _ eq_refl).
      cbn [map].
      assert (Hf2 : fill_default allowed (k, v2) = (k, v2)
                    ∧ coerce_param E k pc v2 = (inr tt, v2)).
      { destruct (pyval_None_dec v2) as [->|Hne].
        - pose proof (coerce_param_None _ _ _ Hc) as ->.
          split; [|exact Hc]. exact (fill_default_None _ _ _ Hf).
        - split; [now apply fill_default_not_None|].
          exact (coerce_param_idem _ _ _ _ Hc). }
      destruct Hf2 as [-> Hc2]. cbn [coerce_items]. rewrite Ha, Hc2, IH.
      reflexivity.
    + rewrite (fill_default_undeclared _ _ _ Ha) in Hf. injection Hf as <-.
      destruct (coerce_items E allowed (map (fill_default allowed) req))
        as [r rest'] eqn:Hrest.
      intros [= -> <-].
      specialize (IH _ eq_refl).
      cbn [map]. rewrite (fill_default_undeclared _ _ _ Ha).
      cbn [coerce_items]. rewrite Ha, IH. reflexivity.
Qed.

(** A list stored in the request goes through both loops unchanged. *)
Lemma coerce_fill_keeps_list allowed req req' key l :
  coerce_items E allowed (map (fill_default allowed) req) = (inr tt, req') →
  dict_get req key = Some (VList l) →
  dict_get req' key = Some (VList l).
Proof.
  revert req'. induction req as [|[k v] req IH]; intros req'; [discriminate|].
  cbn [map dict_get].
  destruct (fill_default allowed (k, v)) as [k1 v1] eqn:Hf.
  assert (k1 = k) as -> by (pose proof (fill_default_fst allowed (k, v)) as Hk;
                            now rewrite Hf in Hk).
  cbn [coerce_items].
  destruct (coerce_items E allowed (map (fill_default allowed) req))
    as [r rest'] eqn:Hrest.
  destruct (assoc allowed k) as [pc|] eqn:Ha.
  - destruct (coerce_param E k pc v1) as [[e|[]] v2] eqn:Hc; [discriminate|].
    intros [= -> <-]. cbn [dict_get].
    destruct (String.eqb k key); [|now apply IH].
    intros [= ->]. rewrite fill_default_not_None in Hf by discriminate.
    injection Hf as <-. now rewrite (coerce_param_list _ _ _ _ Hc).
  - intros [= -> <-]. cbn [dict_get].
    destruct (String.eqb k key); [|now apply IH].
    intros [= ->]. rewrite fill_default_not_None in Hf by discriminate.
    now injection Hf as <-.
Qed.

(** Only a list passes the two checks on the messages. *)
Lemma messages_ok_list v messages :
  py_truthy v = true → py_iter v = Some messages →
  forallb message_ok messages = true → ∃ l, v = VList l.
Proof.
  destruct v as [| | | |s|l|d]; cbn; try discriminate; eauto.
  - destruct s; [discriminate|]. intros _ [= <-]. discriminate.
  - destruct d; [discriminate|]. intros _ [= <-]. discriminate.
Qed.

Lemma validate_success req mc req' :
  validate E req mc = (inr tt, req') →
  ∃ l, dict_get req "messages" = Some (VList l)
       ∧ py_truthy (VList l) = true
       ∧ forallb message_ok l = true
       ∧ coerce_items E (parameters mc) (map (fill_default (parameters mc)) req)
         = (inr tt, req').
Proof.
  unfold validate.
  destruct (py_truthy (default VNone (dict_get req "messages"))) eqn:Ht;
    [|discriminate]. cbn [negb].
  destruct (py_iter (default VNone (dict_get req "messages"))) as [ms|] eqn:Hi;
    [|discriminate].
  destruct (forallb message_ok ms) eqn:Hok; [|discriminate]. cbn [negb].
  intros Hc.
  destruct (messages_ok_list _ _ Ht Hi Hok) as [l Hl].
  destruct (dict_get req "messages") as [v|]; cbn in Hl; [|discriminate].
  subst v. cbn in Hi. injection Hi as <-. cbn in Ht. eauto.
Qed.

(** C9, as the code has it. [_validate_request] works on the caller's
    dictionary, which it updates in place; validating the dictionary it
    leaves behind succeeds again and changes nothing. *)
Theorem validate_idempotent (req req' : pydict) (mc : model_config) :
  validate E req mc = (inr tt, req') →
  validate E req' mc = (inr tt, req').
Proof.
  intros Hv. destruct (validate_success _ _ _ Hv) as (l & Hm & Ht & Hok & Hc).
  pose proof (coerce_fill_keeps_list _ _ _ _ _ Hc Hm) as Hm'.
  unfold validate. rewrite Hm'. unfold default. cbn [from_option id].
  rewrite Ht. cbn [negb py_iter].
  rewrite Hok. cbn [negb].
  exact (coerce_fill_idem _ _ _ Hc).
Qed.

End Validation.

Lemma validate_idempotent_witness :
  validate seed_env hi_request gpt_4o
  = (inr tt,
     [("model", VStr "gpt-4o"); ("messages", VList [VDict hi_message]);
      ("temperature", VFloat 1); ("max_tokens", VInt 2048); ("top_p", VFloat 1);
      ("frequency_penalty", VFloat 0); ("presence_penalty", VFloat 0);
      ("response_format", VStr "text"); ("stream", VBool false)])
  ∧ validate seed_env
      [("model", VStr "gpt-4o"); ("messages", VList [VDict hi_message]);
       ("temperature", VFloat 1); ("max_tokens", VInt 2048); ("top_p", VFloat 1);
       ("frequency_penalty", VFloat 0); ("presence_penalty", VFloat 0);
       ("response_format", VStr "text"); ("stream", VBool false)] gpt_4o
    = (inr tt,
       [("model", VStr "gpt-4o"); ("messages", VList [VDict hi_message]);
        ("temperature", VFloat 1); ("max_tokens", VInt 2048); ("top_p", VFloat 1);
        ("frequency_penalty", VFloat 0); ("presence_penalty", VFloat 0);
        ("response_format", VStr "text"); ("stream", VBool false)]).
Proof.
  split; [reflexivity|].
  apply (validate_idempotent seed_env hi_request); reflexivity.
Defined.

(** C9, as stated, fails: validation is not pure and returns nothing.
    The dictionary built from a request that leaves [max_tokens] and
    [response_format] unset is not the same after the call: the defaults
    are written into it and the integer penalties become floats. *)
Lemma validate_mutates_request :
  ∃ s', _validate_request seed_env gpt_4o (start_state [] hi_request)
        = Some (inr tt, s')
        ∧ request s' ≠ hi_request
        ∧ dict_get hi_request "max_tokens" = Some VNone
        ∧ dict_get (request s') "max_tokens" = Some (VInt 2048)
        ∧ dict_get hi_request "frequency_penalty" = Some (VInt 0)
        ∧ dict_get (request s') "frequency_penalty" = Some (VFloat 0).
Proof.
  eexists; split; [reflexivity|]. split; [discriminate|]. repeat split.
Qed.

(** ** Dispatch with retry *)

Section Retry.

Variable E : Env.

Lemma completion_attempts tag s :
  ∃ out s', completion E tag s = Some (out, s')
            ∧ retry_attempts s' = retry_attempts s.
Proof.
  unfold completion, mbind, M_bind, gets, modify, lift.
  destruct (dict_pop (request s) "messages" (VList [])) as [messages req'].
  destruct (rewrite_messages (item_rewriter E tag) messages) as [e|messages'];
    cbn; eauto.
Qed.

Lemma retry_loop_attempts tag rc n first s :
  ∃ out s' new, retry_loop E tag rc n first s = Some (out, s')
                ∧ retry_attempts s' = retry_attempts s ++ new
                ∧ appended_ok first n new.
Proof.
  revert first s. induction n as [|n IH]; intros first s.
  - exists (inr VNone), s, []. rewrite app_nil_r.
    split; [reflexivity|]. split; [reflexivity|]. split; [cbn; lia|].
    intros i a Hi. discriminate Hi.
  - cbn [retry_loop]. unfold try_except.
    destruct (completion_attempts tag s) as (out & s1 & Hc & Hs1).
    unfold mbind at 1. unfold M_bind at 1. rewrite Hc.
    destruct out as [e|response].
    + (* the attempt failed *)
      unfold mbind, M_bind, gets, append_attempt, modify, raise. cbn.
      destruct (first =? max_retries rc - 1).
      * eexists _, _, [_]. split; [reflexivity|]. cbn. rewrite Hs1.
        split; [reflexivity|]. split; [cbn; lia|].
        intros [|i] a; cbn; [|discriminate]. intros [= <-]. cbn. split; [lia|now left].
      * match goal with |- context [retry_loop E tag rc n ?f ?st] =>
          destruct (IH f st) as (out' & s' & new & Hr & Hs' & Hlen & Hnew) end.
        rewrite Hr. eexists out', s', (_ :: new). split; [reflexivity|].
        rewrite Hs'. cbn. rewrite Hs1, <- app_assoc. split; [reflexivity|].
        split; [cbn; lia|].
        intros [|i] a; cbn.
        { intros [= <-]. cbn. split; [lia|now left]. }
        intros Hi. destruct (Hnew i a Hi) as [Ha Hst]. split; [lia|].
        destruct Hst as [Hf|(Hsu & Hl & Hpos)]; [now left|right].
        repeat split; [exact Hsu | lia | lia].
    + (* the attempt succeeded *)
      destruct (0 <? first) eqn:Hpos.
      * apply Z.ltb_lt in Hpos.
        unfold mbind, M_bind, gets, append_attempt, modify, mret, M_ret. cbn.
        eexists _, _, [_]. split; [reflexivity|]. cbn. rewrite Hs1.
        split; [reflexivity|]. split; [cbn; lia|].
        intros [|i] a; cbn; [|discriminate]. intros [= <-]. cbn. split; [lia|right].
        repeat split; lia.
      * unfold mbind, M_bind, mret, M_ret. cbn.
        exists (inr response), s1, []. rewrite app_nil_r.
        split; [reflexivity|]. split; [exact Hs1|]. split; [cbn; lia|].
        intros i a Hi. discriminate Hi.
Qed.

(** The adapter neither reads nor writes the list of attempts, and
    leaves the clock alone. *)
Lemma completion_run tag s :
  ∃ out s1, completion E tag s = Some (out, s1)
            ∧ retry_attempts s1 = retry_attempts s
            ∧ now s1 = now s
            ∧ ∀ l, completion E tag (set_retry_attempts l s)
                   = Some (out, set_retry_attempts l s1).
Proof.
  unfold completion, mbind, M_bind, gets, modify, lift.
  cbn [request set_retry_attempts].
  destruct (dict_pop (request s) "messages" (VList [])) as [messages req'].
  destruct (rewrite_messages (item_rewriter E tag) messages) as [e|messages'];
    cbn; eexists _, _; (split; [reflexivity|]); auto.
Qed.

Lemma attempt_outcomes_frame tag n l s :
  attempt_outcomes E tag n (set_retry_attempts l s) = attempt_outcomes E tag n s.
Proof.
  revert l s. induction n as [|n IH]; intros l s; [reflexivity|].
  cbn [attempt_outcomes].
  destruct (completion_run tag s) as (out & s1 & Hc & _ & _ & Hl).
  rewrite Hl, Hc. destruct out as [e|response]; [|reflexivity].
  now rewrite IH.
Qed.

(** What the loop appends is what the outcomes of its attempts call
    for; [n] turns are left before attempt number [max_retries]. *)
Lemma retry_loop_entries tag rc n first s :
  n = 0%nat ∨ first + Z.of_nat n = max_retries rc →
  ∃ out s', retry_loop E tag rc n first s = Some (out, s')
            ∧ retry_attempts s'
              = retry_attempts s
                ++ attempt_entries E (now s) (first + 1) (attempt_outcomes E tag n s).
Proof.
  revert first s. induction n as [|n IH]; intros first s Hn.
  - exists (inr VNone), s. cbn. now rewrite app_nil_r.
  - destruct Hn as [Hn|Hn]; [discriminate|].
    cbn [retry_loop attempt_outcomes]. unfold try_except.
    destruct (completion_run tag s) as (out & s1 & Hc & Hs1 & Hnow & _).
    unfold mbind at 1. unfold M_bind at 1. rewrite Hc.
    destruct out as [e|response].
    + (* the attempt failed *)
      unfold mbind, M_bind, gets, append_attempt, modify, raise.
      cbv beta iota. cbn [attempt_entries].
      destruct (Z.eqb_spec first (max_retries rc - 1)) as [Hlast|Hmore].
      * assert (n = 0%nat) as -> by lia.
        eexists _, _. split; [reflexivity|].
        cbn [retry_attempts set_retry_attempts attempt_outcomes attempt_entries].
        now rewrite Hs1, Hnow.
      * match goal with |- context [retry_loop E tag rc n ?f ?st] =>
          destruct (IH f st) as (out' & s' & Hr & Hs'); [right; lia|] end.
        rewrite Hr. exists out', s'. split; [reflexivity|].
        rewrite Hs', attempt_outcomes_frame.
        cbn [retry_attempts set_retry_attempts now].
        now rewrite Hs1, Hnow, <- app_assoc.
    + (* the attempt succeeded *)
      cbn [attempt_entries]. rewrite app_nil_r.
      replace (1 <? first + 1) with (0 <? first)
        by (destruct (Z.ltb_spec 0 first), (Z.ltb_spec 1 (first + 1)); lia || reflexivity).
      destruct (0 <? first).
      * unfold mbind, M_bind, gets, append_attempt, modify, mret, M_ret.
        cbv beta iota. eexists _, _. split; [reflexivity|].
        cbn [retry_attempts set_retry_attempts]. now rewrite Hs1, Hnow.
      * unfold mbind, M_bind, mret, M_ret. cbv beta iota.
        exists (inr response), s1. split; [reflexivity|].
        now rewrite Hs1, app_nil_r.
Qed.

(** C7, as the code has it. Started with the empty list, as
    [handle_request] does, the dispatch always ends, and the list it
    leaves is exactly the record of its attempts: in their order, one
    entry with status failed and the error's text for every attempt that
    failed, followed, when an attempt other than the first succeeded, by
    one entry with status success; a success at the first attempt leaves
    no entry.  So entry number [i] (from 1) belongs to attempt [i], the
    list holds at most [max_retries] entries, and an entry with status
    success is the last of the list and never the first. *)
Theorem retry_attempts_recorded (mc : model_config) (ac : api_config) (s : State) :
  match _process_request_with_retry E mc ac (set_retry_attempts [] s) with
  | None => False
  | Some (_, s') =>
      let l := retry_attempts s' in
      l = attempt_entries E (now s) 1
            (if is_provider (provider mc) then
               attempt_outcomes E (provider mc)
                 (Z.to_nat (max_retries (ac_retry_config ac)))
                 (set_retry_attempts [] s)
             else [])
      ∧ (length l ≤ Z.to_nat (max_retries (ac_retry_config ac)))%nat
      ∧ ∀ (i : nat) (a : retry_attempt), l !! i = Some a →
          attempt a = Z.of_nat i + 1
          ∧ (ra_status a = "failed"
             ∨ (ra_status a = "success" ∧ S i = length l ∧ (0 < i)%nat))
  end.
Proof.
  unfold _process_request_with_retry.
  destruct (is_provider (provider mc)).
  - destruct (retry_loop_entries (provider mc) (ac_retry_config ac)
                (Z.to_nat (max_retries (ac_retry_config ac))) 0
                (set_retry_attempts [] s))
      as (out & s' & Hr & Hentries); [lia|].
    destruct (retry_loop_attempts (provider mc) (ac_retry_config ac)
                (Z.to_nat (max_retries (ac_retry_config ac))) 0
                (set_retry_attempts [] s))
      as (out' & s'' & new & Hr' & Hs' & Hlen & Hnew).
    rewrite Hr in Hr'. injection Hr' as <- <-.
    rewrite Hr. cbn in Hs'. cbv zeta. split; [exact Hentries|].
    rewrite Hs'. split; [exact Hlen|].
    intros i a Hi. destruct (Hnew i a Hi) as [Ha Hst]. split; [lia|].
    destruct Hst as [Hf|(Hsu & Hl & Hpos)]; [now left|right].
    repeat split; [exact Hsu | exact Hl | lia].
  - cbn. split; [reflexivity|]. split; [lia|]. intros i a Hi. discriminate Hi.
Qed.

End Retry.

(** C7, as stated, fails: not every attempt is appended.  Served at the
    first attempt, the request has made one upstream call and its list
    is empty. *)
Lemma first_attempt_leaves_no_entry :
  ∃ response s',
    _process_request_with_retry seed_env gpt_4o (sk_default 100)
      (start_state [sk_default 100] hi_request) = Some (inr response, s')
    ∧ upstream_calls s' = 1%nat
    ∧ retry_attempts s' = [].
Proof. eexists _, _. split; [reflexivity|]. split; reflexivity. Qed.

(** ** The monad *)

Lemma bind_run {A B} (m : M A) (f : A → M B) s r s' :
  m s = Some (r, s') →
  (m ≫= f) s = match r with inl e => Some (inl e, s') | inr a => f a s' end.
Proof. intros H. unfold mbind, M_bind. rewrite H. now destruct r. Qed.

Lemma bind_congr {A B} (m : M A) (f g : A → M B) s :
  (∀ a s', f a s' = g a s') → (m ≫= f) s = (m ≫= g) s.
Proof.
  intros H. unfold mbind, M_bind.
  destruct (m s) as [[[e|a] s']|]; auto.
Qed.

Lemma total_ret {A} (a : A) : total (mret a).
Proof. intros s. cbv. eauto. Qed.

Lemma total_raise {A} e : total (@raise A e).
Proof. intros s. cbv. eauto. Qed.

Lemma total_gets {A} (f : State → A) : total (gets f).
Proof. intros s. cbv. eauto. Qed.

Lemma total_modify f : total (modify f).
Proof. intros s. cbv. eauto. Qed.

Lemma total_lift {A} (r : exn + A) : total (lift r).
Proof. intros s. cbv. eauto. Qed.

Lemma total_bind {A B} (m : M A) (f : A → M B) :
  total m → (∀ a, total (f a)) → total (m ≫= f).
Proof.
  intros Hm Hf s. unfold mbind, M_bind.
  destruct (Hm s) as [[[e|a] s'] ->]; [eauto|apply Hf].
Qed.

Lemma total_try {A} (m : M A) (h : exn → M A) :
  total m → (∀ e, total (h e)) → total (try_except m h).
Proof.
  intros Hm Hh s. unfold try_except.
  destruct (Hm s) as [[[e|a] s'] ->]; [apply Hh|eauto].
Qed.

Create HintDb total.
#[local] Hint Resolve total_ret total_raise total_gets total_modify total_lift : total.

Ltac total_step :=
  first [ apply total_bind; [|intros ?] | apply total_try; [|intros ?]
        | apply total_ret | apply total_raise | apply total_gets
        | apply total_modify | apply total_lift ].

(** ** Fallback to a lower tier *)

Section Fallback.

Variable E : Env.

Lemma total_deduct_balance k cost : total (deduct_balance k cost).
Proof.
  unfold deduct_balance. total_step; [total_step|].
  destruct (find_api_key k a); [|apply total_raise].
  unfold _log_transaction. repeat total_step.
Qed.

Lemma total_check_balance k cost : total (check_balance k cost).
Proof.
  unfold check_balance. total_step; [total_step|].
  destruct (find_api_key k a); [|apply total_raise].
  destruct (Qltb _ _); total_step.
Qed.

Lemma total_log_request response k cost : total (_log_request response k cost).
Proof.
  unfold _log_request. do 2 (total_step; [total_step|]).
  destruct (dict_get a "model"); [|apply total_raise].
  unfold log_request. repeat total_step.
Qed.

Lemma total_log_error k e : total (_log_error k e).
Proof. unfold _log_error, log_request. repeat total_step. Qed.

Lemma total_process (mc : model_config) (ac : api_config) :
  total (_process_request_with_retry E mc ac).
Proof.
  intros s. unfold _process_request_with_retry.
  destruct (is_provider (provider mc)); [|apply total_raise].
  destruct (retry_loop_attempts E (provider mc) (ac_retry_config ac)
              (Z.to_nat (max_retries (ac_retry_config ac))) 0 s)
    as (out & s' & new & -> & _). eauto.
Qed.

Lemma total_settle (mc : model_config) (ac : api_config) k :
  total (response ← _process_request_with_retry E mc ac;
         actual_cost ← lift (_calculate_actual_cost response mc);
         deduct_balance k actual_cost;;
         _log_request response k actual_cost;;
         mret response).
Proof.
  total_step; [apply total_process|].
  total_step; [total_step|].
  total_step; [apply total_deduct_balance|].
  total_step; [apply total_log_request|]. total_step.
Qed.


Lemma get_api_config_run k s : ∃ r, _get_api_config k s = Some (r, s).
Proof.
  unfold _get_api_config, get_api_config, mbind, M_bind, gets, mret, M_ret, raise.
  destruct (find_api_key k (db_api_keys s)) as [ac|]; [|eauto].
  destruct (ac_status ac) as [st|]; [|eauto].
  repeat (case_match; eauto).
Qed.

Lemma check_rate_limits_run k limits s :
  ∃ r s', check_rate_limits k limits s = Some (r, s') ∧ request s' = request s.
Proof.
  rewrite check_rate_limits_unfold.
  destruct (concurrent_requests limits <=? _); eauto.
Qed.

Lemma validate_request_run mc s :
  _validate_request E mc s
  = Some (fst (validate E (request s) mc),
          set_request (snd (validate E (request s) mc)) s).
Proof.
  unfold _validate_request, mbind, M_bind, gets, modify, lift.
  now destruct (validate E (request s) mc).
Qed.

Lemma estimate_cost_run mc s :
  _estimate_cost E mc s = Some (estimate E (request s) mc, s).
Proof. reflexivity. Qed.

Lemma check_balance_run k cost s : ∃ r, check_balance k cost s = Some (r, s).
Proof.
  unfold check_balance, mbind, M_bind, gets, TypeError, raise, mret, M_ret.
  destruct (find_api_key k (db_api_keys s)); [|eauto].
  destruct (Qltb _ _); eauto.
Qed.

(** An embedded document is equal to no string: the [$all] clause rejects
    every stored model, whatever the keys asked for. *)
Lemma mongo_all_document (d : pydict) (values : list string) :
  mongo_all (VDict d) values = false.
Proof. destruct values as [|v values]; reflexivity. Qed.

Lemma lower_tier_query_rejects level caps m : lower_tier_query level caps m = false.
Proof.
  unfold lower_tier_query, capabilities_document.
  rewrite mongo_all_document. now rewrite andb_false_r.
Qed.

Lemma find_lower_tier_model_none level caps : find_lower_tier_model E level caps = None.
Proof.
  unfold find_lower_tier_model.
  induction (db_models E) as [|m models IH]; cbn [List.filter]; [reflexivity|].
  now rewrite lower_tier_query_rejects.
Qed.

(** The fallback raises and leaves the state as it is. *)
Lemma handle_insufficient_balance_raises handle ac s :
  ∃ e, _handle_insufficient_balance E handle ac s = Some (inl e, s).
Proof.
  unfold _handle_insufficient_balance.
  destruct (negb _); [now eexists|].
  rewrite (bind_run (gets request) _ s (inr (request s)) s eq_refl).
  destruct (dict_get (request s) "model") as [id|]; [|now eexists].
  destruct (get_model_config E id) as [current|]; [|now eexists].
  rewrite find_lower_tier_model_none. now eexists.
Qed.

(** The re-entry of [handle_request] is never reached. *)
Lemma handle_insufficient_balance_no_reentry handle handle' ac s :
  _handle_insufficient_balance E handle ac s
  = _handle_insufficient_balance E handle' ac s.
Proof.
  unfold _handle_insufficient_balance.
  destruct (negb _); [reflexivity|].
  apply bind_congr; intros req s1.
  destruct (dict_get req "model") as [id|]; [|reflexivity].
  destruct (get_model_config E id) as [current|]; [|reflexivity].
  now rewrite find_lower_tier_model_none.
Qed.

Lemma handle_steps_no_reentry handle handle' k s :
  handle_steps E handle k s = handle_steps E handle' k s.
Proof.
  unfold handle_steps.
  apply bind_congr; intros [ac|] s1; [|reflexivity].
  apply bind_congr; intros req s2.
  destruct (dict_get req "model") as [id|]; [|reflexivity].
  destruct (get_model_config E id) as [mc|]; [|reflexivity].
  do 4 (apply bind_congr; intros ? ?).
  destruct (negb _); [|reflexivity].
  apply handle_insufficient_balance_no_reentry.
Qed.

(** One activation of [handle_request] is all a call ever needs. *)
Lemma handle_request_depth depth k s :
  handle_request E (S depth) k s = handle_request E 1 k s.
Proof.
  cbn [handle_request]. apply bind_congr; intros _ s1.
  unfold try_except. now rewrite (handle_steps_no_reentry _ (handle_request E 0 k)).
Qed.

Lemma handle_steps_some handle k s : is_Some (handle_steps E handle k s).
Proof.
  unfold handle_steps.
  destruct (get_api_config_run k s) as [r Hr]. rewrite (bind_run _ _ _ _ _ Hr).
  destruct r as [e|[ac|]]; [eauto|..|apply total_raise].
  rewrite (bind_run (gets request) _ s (inr (request s)) s eq_refl).
  destruct (dict_get (request s) "model") as [id|] eqn:Hid; [|apply total_raise].
  destruct (get_model_config E id) as [mc|] eqn:Hmc; [|apply total_raise].
  destruct (check_rate_limits_run k (ac_rate_limits ac) s) as (r1 & s1 & H1 & Hreq1).
  rewrite (bind_run _ _ _ _ _ H1). destruct r1 as [e|[]]; [eauto|].
  rewrite (bind_run _ _ _ _ _ (validate_request_run mc s1)).
  destruct (validate E (request s1) mc) as [rv req'] eqn:Hv. cbn [fst snd].
  destruct rv as [e|[]]; [eauto|].
  rewrite (bind_run _ _ _ _ _ (estimate_cost_run mc (set_request req' s1))).
  cbn [request set_request].
  destruct (estimate E req' mc) as [e|cost]; [eauto|].
  destruct (check_balance_run k cost (set_request req' s1)) as [rb Hb].
  rewrite (bind_run _ _ _ _ _ Hb).
  destruct rb as [e|[|]]; [eauto|apply total_settle|]. cbn [negb].
  destruct (handle_insufficient_balance_raises handle ac (set_request req' s1))
    as [e ->]. eauto.
Qed.

Lemma handle_request_some depth k s : is_Some (handle_request E (S depth) k s).
Proof.
  cbn [handle_request].
  erewrite bind_run by reflexivity. cbv beta iota.
  unfold try_except.
  destruct (handle_steps_some (handle_request E depth k) k (set_retry_attempts [] s))
    as [[[e|response] s'] ->].
  - apply total_bind; [apply total_log_error|intros; apply total_raise].
  - eauto.
Qed.

End Fallback.

(** C3. The fallback of the code, meant to find a lower-tier model and to
    run the request again with it, never finds one.  The catalogue of the
    seed holds grok-2-vision-1212, active, of level 1 and with every
    capability of gpt-4o, and a credential with a balance of 1 is served
    when it asks for that model; asking for gpt-4o, whose estimate it
    cannot pay, it gets 402, still names gpt-4o, and nothing was sent
    upstream or charged: no substitution was made. *)
Theorem fallback_finds_no_lower_tier :
  In grok_2_vision (db_models seed_env)
  ∧ capability_level grok_2_vision < capability_level gpt_4o
  ∧ capabilities grok_2_vision = capabilities gpt_4o
  ∧ mc_status grok_2_vision = "active"
  ∧ (∃ response s',
       handle_request seed_env 1 "sk-default"
         (start_state [sk_default 1]
            (completion_request "grok-2-vision-1212" [VDict hi_message]))
       = Some (inr response, s'))
  ∧ find_lower_tier_model seed_env (capability_level gpt_4o) (capabilities gpt_4o)
    = None
  ∧ ∃ s',
      handle_request seed_env 1 "sk-default" (start_state [sk_default 1] hi_request)
      = Some (inl (HTTPException 402
                     "Insufficient balance and no lower tier model available"), s')
      ∧ dict_get (request s') "model" = Some (VStr "gpt-4o")
      ∧ upstream_calls s' = 0%nat
      ∧ db_transactions s' = []
      ∧ db_api_keys s' = [sk_default 1].
Proof.
  split; [right; now left|].
  split; [reflexivity|]. split; [reflexivity|]. split; [reflexivity|].
  split; [eexists _, _; vm_compute; reflexivity|].
  split; [vm_compute; reflexivity|].
  eexists. split; [vm_compute; reflexivity|].
  split; [vm_compute; reflexivity|].
  split; [reflexivity|]. split; reflexivity.
Qed.

(** ** The concurrency counter *)

(** [check_rate_limits] reads the concurrency counter and never writes it. *)
Lemma check_rate_limits_keeps_concurrent k limits s r s' :
  check_rate_limits k limits s = Some (r, s') →
  Redis.kv (redis s') !! concurrent_key k = Redis.kv (redis s) !! concurrent_key k.
Proof.
  rewrite check_rate_limits_unfold.
  destruct (concurrent_requests limits <=? _); [now intros [= _ <-]|].
  cbv zeta. intros [= _ <-]. cbn [redis set_redis windows_bumped Redis.kv].
  rewrite !lookup_insert_ne; [reflexivity|..]; apply not_eq_sym.
  - apply concurrent_minute_ne.
  - apply concurrent_day_ne.
  - apply concurrent_month_ne.
Qed.

Section Gauge.

Variable E : Env.
Variable k : string.

Lemma keeps_ret {A} (a : A) : keeps_gauge k (mret a).
Proof. now intros s out s' [= _ <-]. Qed.

Lemma keeps_raise {A} e : keeps_gauge k (@raise A e).
Proof. now intros s out s' [= _ <-]. Qed.

Lemma keeps_gets {A} (f : State → A) : keeps_gauge k (gets f).
Proof. now intros s out s' [= _ <-]. Qed.

Lemma keeps_lift {A} (r : exn + A) : keeps_gauge k (lift r).
Proof. now intros s out s' [= _ <-]. Qed.

Lemma keeps_modify f : (∀ s, redis (f s) = redis s) → keeps_gauge k (modify f).
Proof. intros Hf s out s' [= _ <-]. unfold gauge. now rewrite Hf. Qed.

Lemma keeps_bind {A B} (m : M A) (f : A → M B) :
  keeps_gauge k m → (∀ a, keeps_gauge k (f a)) → keeps_gauge k (m ≫= f).
Proof.
  intros Hm Hf s out s' H. unfold mbind, M_bind in H.
  destruct (m s) as [[[e|a] s1]|] eqn:Hms; [| |discriminate].
  - injection H as <- <-. exact (Hm _ _ _ Hms).
  - rewrite (Hf _ _ _ _ H). exact (Hm _ _ _ Hms).
Qed.

Lemma keeps_try {A} (m : M A) (h : exn → M A) :
  keeps_gauge k m → (∀ e, keeps_gauge k (h e)) → keeps_gauge k (try_except m h).
Proof.
  intros Hm Hh s out s' H. unfold try_except in H.
  destruct (m s) as [[[e|a] s1]|] eqn:Hms; [| |discriminate].
  - rewrite (Hh _ _ _ _ H). exact (Hm _ _ _ Hms).
  - injection H as <- <-. exact (Hm _ _ _ Hms).
Qed.

Ltac keeps_step :=
  first [ apply keeps_ret | apply keeps_raise | apply keeps_gets | apply keeps_lift
        | apply keeps_modify; intros ?; reflexivity
        | apply keeps_bind; [|intros ?] | apply keeps_try; [|intros ?] ].

Lemma keeps_check_rate_limits limits : keeps_gauge k (check_rate_limits k limits).
Proof.
  intros s out s' H. unfold gauge, Redis.get.
  exact (check_rate_limits_keeps_concurrent _ _ _ _ _ H).
Qed.

Lemma keeps_get_api_config : keeps_gauge k (_get_api_config k).
Proof.
  intros s out s' H. destruct (get_api_config_run k s) as [r Hr].
  rewrite Hr in H. now injection H as _ <-.
Qed.

Lemma keeps_validate_request mc : keeps_gauge k (_validate_request E mc).
Proof. intros s out s'. rewrite validate_request_run. now intros [= _ <-]. Qed.

Lemma keeps_check_balance cost : keeps_gauge k (check_balance k cost).
Proof.
  intros s out s' H. destruct (check_balance_run k cost s) as [r Hr].
  rewrite Hr in H. now injection H as _ <-.
Qed.

Lemma keeps_deduct_balance cost : keeps_gauge k (deduct_balance k cost).
Proof.
  unfold deduct_balance. keeps_step; [keeps_step|].
  destruct (find_api_key k a); [|apply keeps_raise].
  unfold _log_transaction. repeat keeps_step.
Qed.

Lemma keeps_log_request response cost : keeps_gauge k (_log_request response k cost).
Proof.
  unfold _log_request. do 2 (keeps_step; [keeps_step|]).
  destruct (dict_get a "model"); [|apply keeps_raise].
  unfold log_request. repeat keeps_step.
Qed.

Lemma keeps_log_error e : keeps_gauge k (_log_error k e).
Proof. unfold _log_error, log_request. repeat keeps_step. Qed.

Lemma keeps_completion tag : keeps_gauge k (completion E tag).
Proof.
  unfold completion. keeps_step; [keeps_step|].
  destruct (dict_pop a "messages" (VList [])) as [messages req'].
  repeat keeps_step.
Qed.

Lemma keeps_retry_loop tag rc n first : keeps_gauge k (retry_loop E tag rc n first).
Proof.
  revert first. induction n as [|n IH]; intros first; cbn [retry_loop].
  - apply keeps_ret.
  - keeps_step.
    + keeps_step; [apply keeps_completion|].
      keeps_step; [|keeps_step].
      destruct (0 <? first); unfold append_attempt; repeat keeps_step.
    + keeps_step; [keeps_step|].
      keeps_step; [unfold append_attempt; keeps_step|].
      destruct (first =? max_retries rc - 1); [apply keeps_raise|apply IH].
Qed.

Lemma keeps_process mc ac : keeps_gauge k (_process_request_with_retry E mc ac).
Proof.
  unfold _process_request_with_retry.
  destruct (is_provider (provider mc)); [apply keeps_retry_loop|apply keeps_raise].
Qed.

Lemma keeps_handle_insufficient_balance handle ac :
  keeps_gauge k handle → keeps_gauge k (_handle_insufficient_balance E handle ac).
Proof.
  intros Hh. unfold _handle_insufficient_balance.
  destruct (negb _); [apply keeps_raise|].
  keeps_step; [keeps_step|].
  destruct (dict_get a "model") as [id|]; [|apply keeps_raise].
  destruct (get_model_config E id) as [current|]; [|apply keeps_raise].
  destruct (find_lower_tier_model E _ _); [|apply keeps_raise].
  keeps_step; [keeps_step|exact Hh].
Qed.

Lemma keeps_handle_steps handle :
  keeps_gauge k handle → keeps_gauge k (handle_steps E handle k).
Proof.
  intros Hh. unfold handle_steps.
  keeps_step; [apply keeps_get_api_config|].
  destruct a as [ac|]; [|apply keeps_raise].
  keeps_step; [keeps_step|].
  destruct (dict_get a "model") as [id|]; [|apply keeps_raise].
  destruct (get_model_config E id) as [mc|]; [|apply keeps_raise].
  keeps_step; [apply keeps_check_rate_limits|].
  keeps_step; [apply keeps_validate_request|].
  keeps_step; [unfold _estimate_cost; repeat keeps_step|].
  keeps_step; [apply keeps_check_balance|].
  destruct (negb _); [now apply keeps_handle_insufficient_balance|].
  keeps_step; [apply keeps_process|].
  keeps_step; [keeps_step|].
  keeps_step; [apply keeps_deduct_balance|].
  keeps_step; [apply keeps_log_request|]. keeps_step.
Qed.

(** No path of [handle_request], fallback included, writes the
    concurrency counter of its credential: nothing increments it at
    admission and nothing releases it. *)
Lemma keeps_handle_request depth : keeps_gauge k (handle_request E depth k).
Proof.
  induction depth as [|depth IH]; cbn [handle_request].
  - intros s out s'. discriminate.
  - keeps_step; [keeps_step|].
    keeps_step; [now apply keeps_handle_steps|].
    keeps_step; [apply keeps_log_error|apply keeps_raise].
Qed.

End Gauge.

(** C1 on the code. An admission leaves [concurrent:sk-default] unset
    where the claim has it at 1, so a second admission is granted under a
    ceiling of one request at a time, and a request served to the end
    neither increments nor decrements the counter. *)
Theorem concurrency_counter_never_written :
  (∃ s1, check_rate_limits "sk-default" one_at_a_time
           (start_state [sk_default 100] hi_request) = Some (inr tt, s1)
         ∧ Redis.get (redis s1) (concurrent_key "sk-default") = None
         ∧ ∃ s2, check_rate_limits "sk-default" one_at_a_time s1 = Some (inr tt, s2)
                 ∧ Redis.get (redis s2) (concurrent_key "sk-default") = None)
  ∧ ∃ response s',
      handle_request seed_env 1 "sk-default"
        (start_state [sk_default 100] hi_request) = Some (inr response, s')
      ∧ Redis.get (redis s') (concurrent_key "sk-default") = None
      ∧ dom (Redis.kv (redis s'))
        = {[ minute_key "sk-default" some_time; day_key "sk-default" some_time;
             month_key "sk-default" some_time ]}.
Proof.
  split.
  - eexists. split; [vm_compute; reflexivity|]. split; [vm_compute; reflexivity|].
    eexists. split; [vm_compute; reflexivity|]. vm_compute; reflexivity.
  - eexists _, _. split; [vm_compute; reflexivity|].
    split; [vm_compute; reflexivity|].
    apply (bool_decide_unpack _). vm_compute. exact I.
Qed.

(** ** The public route *)

(** Whatever [handle_request] raises leaves the route as a 500. *)
Lemma route_errors_are_500 E depth body k s e s' :
  create_chat_completion E depth body k s = Some (inl e, s') →
  ∃ detail, e = HTTPException 500 detail.
Proof.
  unfold create_chat_completion.
  erewrite bind_run by reflexivity. cbv beta iota.
  unfold try_except, raise.
  destruct (handle_request E depth k (set_request body s)) as [[[e0|r] s0]|];
    [|discriminate..].
  intros [= <- _]. eauto.
Qed.

(** C2 on the code. At the route, a disabled credential, an unknown
    credential, an unknown model, an exhausted minute quota and an
    insufficient balance are all answered with status 500, where the
    claim has 403, 401, 400, 429 and 402; only the malformed credential,
    rejected before the route function runs, gets its 401. *)
Theorem route_statuses :
  let post body key keys :=
    option_map (fun r => response_status (fst r))
      (post_chat_completions seed_env 1 body key (start_state keys [])) in
  post hi_request "sk-default" [with_status (Some "disabled") (sk_default 100)] = Some 500
  ∧ post hi_request "sk-unknown" [sk_default 100] = Some 500
  ∧ post (completion_request "no-such-model" [VDict hi_message]) "sk-default"
      [sk_default 100] = Some 500
  ∧ post hi_request "sk-default"
      [with_retry no_fallback (sk_default (1 # 10))] = Some 500
  ∧ post hi_request "default" [sk_default 100] = Some 401
  ∧ ∃ first s1 s2,
      post_chat_completions seed_env 1 hi_request "sk-default"
        (start_state [with_limits one_per_minute (sk_default 100)] [])
      = Some (Response200 first, s1)
      ∧ post_chat_completions seed_env 1 hi_request "sk-default" s1
        = Some (JSONResponse 500
                  {| eb_message := "429: Rate limit exceeded (per minute)";
                     eb_type := "api_error"; eb_code := 500 |}, s2).
Proof.
  cbv zeta.
  do 5 (split; [vm_compute; reflexivity|]).
  eexists _, _, _. split; vm_compute; reflexivity.
Qed.

(** ** The adapters and the caller's request *)

Lemma dict_pop_get d k dflt :
  NoDup (map fst d) → dict_get (snd (dict_pop d k dflt)) k = None.
Proof.
  unfold dict_pop. destruct (dict_get d k) eqn:Hg; cbn [snd]; [|now intros _].
  clear Hg. induction d as [|[k' v'] d IH]; cbn; [reflexivity|].
  intros Hnd. inversion Hnd as [|? ? Hk' Hnd']; subst.
  destruct (String.eqb k' k) eqn:Hk; cbn.
  - apply String.eqb_eq in Hk as ->.
    clear -Hk'. induction d as [|[k2 v2] d IH]; cbn; [reflexivity|].
    destruct (String.eqb k2 k) eqn:Hk2.
    + apply String.eqb_eq in Hk2 as ->. exfalso. apply Hk'. cbn. left.
    + apply IH. intros Hin. apply Hk'. cbn. now right.
  - rewrite Hk. now apply IH.
Qed.

(** Every adapter, whatever the upstream answers, hands the request back
    without its messages. *)
Lemma completion_pops_messages E tag s out s' :
  completion E tag s = Some (out, s') →
  request s' = snd (dict_pop (request s) "messages" (VList [])).
Proof.
  unfold completion, mbind, M_bind, gets, modify, lift.
  destruct (dict_pop (request s) "messages" (VList [])) as [messages req'].
  destruct (rewrite_messages (item_rewriter E tag) messages) as [e|messages'];
    cbn; now intros [= _ <-].
Qed.

Lemma completion_leaves_no_messages E tag s out s' :
  NoDup (map fst (request s)) →
  completion E tag s = Some (out, s') →
  dict_get (request s') "messages" = None.
Proof.
  intros Hnd Hc. rewrite (completion_pops_messages _ _ _ _ _ Hc).
  now apply dict_pop_get.
Qed.

(** C6 on the code. After one successful call of any of the three
    adapters the caller's request has no messages left; when the first
    attempt fails, the retry sends the upstream an empty message list
    (the stub reports 0 prompt tokens), and the request log of the served
    request counts 0 messages. *)
Theorem completion_drops_messages :
  (∀ tag, tag ∈ ["openai"; "anthropic"; "xai"] →
     ∃ response s',
       completion seed_env tag (start_state [] hi_request) = Some (inr response, s')
       ∧ dict_get hi_request "messages" = Some (VList [VDict hi_message])
       ∧ dict_get (request s') "messages" = None)
  ∧ ∃ s' entry,
      handle_request flaky_env 1 "sk-default"
        (start_state [sk_default 100] hi_request)
      = Some (inr (usage_response 0 10), s')
      ∧ upstream_calls s' = 2%nat
      ∧ db_requests s' = [entry]
      ∧ rl_status entry = "completed"
      ∧ rl_message_count entry = 0%nat
      ∧ rl_message_types entry = [].
Proof.
  split.
  - intros tag Htag.
    repeat (apply elem_of_cons in Htag as [->|Htag]);
      [..|now apply elem_of_nil in Htag];
      (eexists _, _; split; [vm_compute; reflexivity|]; split; reflexivity).
  - eexists _, _. split; [vm_compute; reflexivity|].
    repeat split; reflexivity.
Qed.

(** ** Image input *)

(** The validation of the pipeline reads nothing of a model but its
    parameter schema. *)
Lemma validate_ignores_capabilities E req mc mc' :
  parameters mc = parameters mc' → validate E req mc = validate E req mc'.
Proof. intros H. unfold validate. now rewrite H. Qed.

(** C10 on the code. A request with an image item for a model whose
    capabilities exclude images passes [_validate_request] and is sent
    upstream; the check written in parameter_validator.py rejects the same
    request with 400. *)
Theorem image_for_text_only_model_is_accepted :
  assoc (capabilities text_only) "image" = Some false
  ∧ fst (validate (stub_env [text_only] always_ok) image_request text_only) = inr tt
  ∧ (∃ response s',
       handle_request (stub_env [text_only] always_ok) 1 "sk-default"
         (start_state [sk_default 100] image_request) = Some (inr response, s')
       ∧ upstream_calls s' = 1%nat)
  ∧ capability_check ["text"] "text-only" image_request
    = inl (HTTPException 400 "Model text-only does not support image input").
Proof.
  split; [reflexivity|]. split; [reflexivity|].
  split; [|reflexivity].
  eexists _, _. split; [vm_compute; reflexivity|reflexivity].
Qed.

(** * More of the code *)

(** ** Billing: cost and balance *)












(** ** Rate limiter: isolation and quota *)








Lemma concurrent_key_inj k k' : concurrent_key k = concurrent_key k' → k = k'.
Proof. unfold concurrent_key. apply String.app_inj. Qed.










(** ** Validation: what it keeps and what it guarantees *)

Section ValidationMore.

Variable E : Env.












End ValidationMore.



Section ValidationErrors.

Variable E : Env.









End ValidationErrors.



(** ** Model manager *)

Section Catalogue.

Variable E : Env.



End Catalogue.



(** ** The admin route *)




(** ** Dispatch: when every attempt fails *)

Section RetryMore.

Variable E : Env.




End RetryMore.


(** ** The adapters: what they forward *)

Section Adapters.

Variable E : Env.










End Adapters.


Section AdaptersMore.

Variable E : Env.






End AdaptersMore.




(** ** Invariants of a whole request *)

Section Invariant.

Variable E : Env.
Variable k : string.
Variable R : State → State → Prop.

Hypothesis R_refl : ∀ s, R s s.
Hypothesis R_trans : ∀ s1 s2 s3, R s1 s2 → R s2 s3 → R s1 s3.
Hypothesis R_redis : ∀ s, R s (set_redis (windows_bumped k (now s) (redis s)) s).
Hypothesis R_request : ∀ d s, R s (set_request d s).
Hypothesis R_calls : ∀ n s, R s (set_upstream_calls n s).
Hypothesis R_attempts : ∀ l s, R s (set_retry_attempts l s).
Hypothesis R_balance :
  ∀ b s, R s (set_db_api_keys (update_one_balance k b (db_api_keys s)) s).
Hypothesis R_transaction :
  ∀ tx s, R s (set_db_transactions (db_transactions s ++ [tx]) s).
Hypothesis R_log : ∀ entry s, R s (set_db_requests (db_requests s ++ [entry]) s).

Lemma respects_ret {A} (a : A) : respects R (mret a).
Proof using R_refl. intros s out s' [= _ <-]. apply R_refl. Qed.

Lemma respects_raise {A} e : respects R (@raise A e).
Proof using R_refl. intros s out s' [= _ <-]. apply R_refl. Qed.

Lemma respects_gets {A} (f : State → A) : respects R (gets f).
Proof using R_refl. intros s out s' [= _ <-]. apply R_refl. Qed.

Lemma respects_lift {A} (r : exn + A) : respects R (lift r).
Proof using R_refl. intros s out s' [= _ <-]. apply R_refl. Qed.

Lemma respects_modify f : (∀ s, R s (f s)) → respects R (modify f).
Proof. intros Hf s out s' [= _ <-]. apply Hf. Qed.

Lemma respects_bind {A B} (m : M A) (f : A → M B) :
  respects R m → (∀ a, respects R (f a)) → respects R (m ≫= f).
Proof using R_trans.
  intros Hm Hf s out s' H. unfold mbind, M_bind in H.
  destruct (m s) as [[[e|a] s1]|] eqn:Hms; [| |discriminate].
  - injection H as <- <-. exact (Hm _ _ _ Hms).
  - exact (R_trans _ _ _ (Hm _ _ _ Hms) (Hf _ _ _ _ H)).
Qed.

Lemma respects_try {A} (m : M A) (h : exn → M A) :
  respects R m → (∀ e, respects R (h e)) → respects R (try_except m h).
Proof using R_trans.
  intros Hm Hh s out s' H. unfold try_except in H.
  destruct (m s) as [[[e|a] s1]|] eqn:Hms; [| |discriminate].
  - exact (R_trans _ _ _ (Hm _ _ _ Hms) (Hh _ _ _ _ H)).
  - injection H as <- <-. exact (Hm _ _ _ Hms).
Qed.

Ltac respects_step :=
  first [ apply respects_ret | apply respects_raise | apply respects_gets
        | apply respects_lift
        | apply respects_modify; intros ?;
          first [ apply R_request | apply R_calls | apply R_attempts
                | apply R_balance | apply R_transaction | apply R_log ]
        | apply respects_bind; [|intros ?] | apply respects_try; [|intros ?] ].

Lemma respects_check_rate_limits limits : respects R (check_rate_limits k limits).
Proof using R_refl R_redis.
  intros s out s'. rewrite check_rate_limits_unfold.
  destruct (concurrent_requests limits <=? _).
  - intros [= _ <-]. apply R_refl.
  - cbv zeta. intros [= _ <-]. apply R_redis.
Qed.







Lemma respects_completion tag : respects R (completion E tag).
Proof using R_refl R_trans R_request R_calls.
  unfold completion. respects_step; [respects_step|].
  destruct (dict_pop a "messages" (VList [])) as [messages req'].
  repeat respects_step.
Qed.

Lemma respects_retry_loop tag rc n first : respects R (retry_loop E tag rc n first).
Proof using R_refl R_trans R_request R_calls R_attempts.
  revert first. induction n as [|n IH]; intros first; cbn [retry_loop].
  - apply respects_ret.
  - respects_step.
    + respects_step; [apply respects_completion|].
      respects_step; [|respects_step].
      destruct (0 <? first); unfold append_attempt; repeat respects_step.
    + respects_step; [respects_step|].
      respects_step; [unfold append_attempt; respects_step|].
      destruct (first =? max_retries rc - 1); [apply respects_raise|apply IH].
Qed.

Lemma respects_process mc ac : respects R (_process_request_with_retry E mc ac).
Proof using R_refl R_trans R_request R_calls R_attempts.
  unfold _process_request_with_retry.
  destruct (is_provider (provider mc)); [apply respects_retry_loop|apply respects_raise].
Qed.



End Invariant.















(** ** Settlement: who is charged, and when *)

Lemma bind_inv {A B} (m : M A) (f : A → M B) s out s' :
  (m ≫= f) s = Some (out, s') →
  (∃ e, m s = Some (inl e, s') ∧ out = inl e)
  ∨ (∃ a s1, m s = Some (inr a, s1) ∧ f a s1 = Some (out, s')).
Proof.
  unfold mbind, M_bind. destruct (m s) as [[[e|a] s1]|]; [| |discriminate].
  - intros [= <- <-]. left. eauto.
  - intros H. right. eauto.
Qed.

Lemma same_db_refl s : same_db s s.
Proof. now repeat split. Qed.

Lemma same_db_trans s1 s2 s3 : same_db s1 s2 → same_db s2 s3 → same_db s1 s3.
Proof. intros (A & B & C) (D & F & G). repeat split; congruence. Qed.

Section Settlement.

Variable E : Env.
Variable k : string.

Lemma same_db_process mc ac : respects same_db (_process_request_with_retry E mc ac).
Proof.
  apply respects_process; intros;
    first [apply same_db_refl | eapply same_db_trans; eassumption | now repeat split].
Qed.

Lemma same_db_check_rate_limits limits : respects same_db (check_rate_limits k limits).
Proof.
  apply respects_check_rate_limits; intros; now repeat split.
Qed.

(** The ways [handle_steps] can go: it fails before the balance is
    compared with the estimate, or it reaches that point with the
    validated request and then either falls back or dispatches. *)
Lemma handle_steps_inv handle s out s' :
  handle_steps E handle k s = Some (out, s') →
  (∃ e, out = inl e ∧ same_db s s')
  ∨ ∃ ac id mc s1,
      dict_get (request s) "model" = Some id
      ∧ get_model_config E id = Some mc
      ∧ same_db s s1
      ∧ validate E (request s) mc = (inr tt, request s1)
      ∧ (_handle_insufficient_balance E handle ac s1 = Some (out, s')
         ∨ (response ← _process_request_with_retry E mc ac;
            actual_cost ← lift (_calculate_actual_cost response mc);
            deduct_balance k actual_cost;;
            _log_request response k actual_cost;;
            mret response) s1 = Some (out, s')).
Proof.
  unfold handle_steps. intros H.
  destruct (get_api_config_run k s) as [r Hr].
  apply bind_inv in H as [(e & Hm & ->)|(o & s0 & Hm & H)];
    rewrite Hr in Hm; injection Hm as -> <-.
  { left. eexists. split; [reflexivity|apply same_db_refl]. }
  destruct o as [ac|]; [|injection H as <- <-; left; eexists; split;
                          [reflexivity|apply same_db_refl]].
  apply bind_inv in H as [(e & Hm & ->)|(req & s0 & Hm & H)]; [discriminate|].
  injection Hm as <- <-.
  destruct (dict_get (request s) "model") as [id|] eqn:Hid;
    [|injection H as <- <-; left; eexists; split; [reflexivity|apply same_db_refl]].
  destruct (get_model_config E id) as [mc|] eqn:Hmc;
    [|injection H as <- <-; left; eexists; split; [reflexivity|apply same_db_refl]].
  apply bind_inv in H as [(e & Hm & ->)|([] & s1 & Hm & H)].
  { left. eexists. split; [reflexivity|]. exact (same_db_check_rate_limits _ _ _ _ Hm). }
  pose proof (same_db_check_rate_limits _ _ _ _ Hm) as Hdb1.
  destruct (check_rate_limits_run k (ac_rate_limits ac) s) as (r1 & s1' & Hr1 & Hreq1).
  rewrite Hr1 in Hm. injection Hm as -> ->.
  apply bind_inv in H as [(e & Hm & ->)|([] & s2 & Hm & H)];
    rewrite validate_request_run in Hm; injection Hm as Hv <-.
  { left. eexists. split; [reflexivity|]. destruct Hdb1 as (A & B & C).
    repeat split; assumption. }
  assert (Hdb2 : same_db s (set_request (snd (validate E (request s1) mc)) s1)).
  { destruct Hdb1 as (A & B & C). repeat split; assumption. }
  apply bind_inv in H as [(e & Hm & ->)|(cost & s3 & Hm & H)];
    rewrite estimate_cost_run in Hm; injection Hm as Hest <-.
  { left. eexists. split; [reflexivity|exact Hdb2]. }
  destruct (check_balance_run k cost (set_request (snd (validate E (request s1) mc)) s1))
    as [rb Hrb].
  apply bind_inv in H as [(e & Hm & ->)|(enough & s4 & Hm & H)];
    rewrite Hrb in Hm; injection Hm as -> <-.
  { left. eexists. split; [reflexivity|exact Hdb2]. }
  right. exists ac, id, mc, (set_request (snd (validate E (request s1) mc)) s1).
  split; [reflexivity|]. split; [exact Hmc|]. split; [exact Hdb2|].
  split.
  - rewrite <- Hreq1. cbn [request set_request].
    destruct (validate E (request s1) mc) as [rv req']. cbn in Hv |- *. now subst rv.
  - destruct (negb enough); [now left|now right].
Qed.

End Settlement.
